(** * Apna_Adda: the multiplayer manager ([src/utils/multiplayer.ts])

    A shallow embedding of the [MultiplayerManager] class: the room and
    game-state repository, the write-through to [localStorage], the
    reconciliation tick [syncWithOtherDevices], the listener registry, and
    the room life-cycle operations.  The one caller of [createRoom], the
    room screen, is embedded as far as it assembles the room record.

    Conventions of the embedding.
    - A JavaScript [Map] is an insertion-ordered association list with
      pairwise distinct keys (module [JsMap]); [Array.from(m.values())] is
      the list of values in that order.
    - [lastUpdated] and [createdAt] hold ISO-8601 text which the code only
      ever produces with [new Date().toISOString()] and only ever reads
      with [new Date(text)].  The embedding stores the instant that text
      denotes: [Instant ms] for a valid date with epoch value [ms],
      [InvalidDate] for text that [new Date] does not parse (its value is
      NaN).
    - The wall clock is an input of every operation that reads it.
    - [localStorage] holds the three values the manager writes, already
      parsed: [JSON.stringify] followed by [JSON.parse] is taken to be the
      identity on rooms and game states, and the adapter is taken not to
      throw (the [catch] branches only log).
    - A listener is known by the identity of its function object; calling
      it is recorded in the trace [delivered].  The bodies of the listeners
      belong to the view layer; the two listeners of the room screen only
      set component state and never call back into the manager. *)

From Stdlib Require Import List String ZArith Bool Lia DecimalString.
Import ListNotations.

Set Implicit Arguments.

Local Open Scope string_scope.
Local Open Scope list_scope.

(* ================================================================= *)
(** ** Insertion-ordered maps with string keys (JavaScript [Map]) *)

Module JsMap.

Definition t (V : Type) : Type := list (string * V).

Definition empty {V : Type} : t V := [].

(** [m.get(k)]: [None] stands for [undefined]. *)
Fixpoint get {V : Type} (k : string) (m : t V) : option V :=
  match m with
  | [] => None
  | (k', v) :: m' => if String.eqb k k' then Some v else get k m'
  end.

Definition has {V : Type} (k : string) (m : t V) : bool :=
  match get k m with Some _ => true | None => false end.

(** [m.set(k, v)]: an existing key keeps its position, a new key goes last. *)
Fixpoint set {V : Type} (k : string) (v : V) (m : t V) : t V :=
  match m with
  | [] => [(k, v)]
  | (k', v') :: m' =>
      if String.eqb k k' then (k, v) :: m' else (k', v') :: set k v m'
  end.

(** [m.delete(k)]. *)
Definition delete {V : Type} (k : string) (m : t V) : t V :=
  filter (fun e => negb (String.eqb k (fst e))) m.

Definition keys {V : Type} (m : t V) : list string := map fst m.

(** [Array.from(m.values())]. *)
Definition values {V : Type} (m : t V) : list V := map snd m.

End JsMap.

(* ================================================================= *)
(** ** Data model *)

(** The instant denoted by a date text; see the conventions above. *)
Inductive Timestamp : Type :=
| Instant (ms : Z)
| InvalidDate.

(** [new Date(a) > new Date(b)]: the comparison of the two epoch values,
    false as soon as one of them is NaN. *)
Definition Date_gt (a b : Timestamp) : bool :=
  match a, b with
  | Instant x, Instant y => (y <? x)%Z
  | _, _ => false
  end.

(** The two readings of the wall clock an operation can make:
    [new Date()] when it stamps an entity, [Date.now()] when
    [saveToStorage] stamps the shared record. *)
Record Clock : Type := mkClock {
  newDate : Z;
  Date_now : Z
}.

(** [new Date().toISOString()] *)
Definition toISOString (clk : Clock) : Timestamp := Instant (newDate clk).

Inductive Status : Type := waiting | playing | finished.

(** Game payloads are opaque to the manager: kept as their JSON text. *)
Definition Json : Type := string.

Module Room.
Record t : Type := mk {
  id : string;
  name : string;
  host : string;
  players : list string;
  game : string;
  status : Status;
  maxPlayers : Z;
  createdAt : Timestamp;
  lastUpdated : Timestamp
}.
End Room.

(** [Omit<Room, 'lastUpdated'>], the argument of [createRoom]. *)
Module RoomData.
Record t : Type := mk {
  id : string;
  name : string;
  host : string;
  players : list string;
  game : string;
  status : Status;
  maxPlayers : Z;
  createdAt : Timestamp
}.
End RoomData.

Module GameState.
Record t : Type := mk {
  roomId : string;
  currentPlayer : option string;
  gameData : option Json;
  moves : option (list Json);
  lastUpdated : Timestamp
}.
End GameState.

(** The record stored under the key [addaMultiplayerSync]. *)
Module SharedData.
Record t : Type := mk {
  rooms : list Room.t;
  gameStates : list GameState.t;
  lastSync : Z
}.
End SharedData.

(** [localStorage], restricted to the three keys of the manager.  [None] is
    a key that is absent (or holds the empty text, which the code treats
    alike). *)
Record LocalStorage : Type := mkStorage {
  addaGameRooms : option (list Room.t);
  addaGameStates : option (list GameState.t);
  addaMultiplayerSync : option SharedData.t
}.

(** Identity of a listener function. *)
Definition Callback : Type := nat.

(** What a listener is called with. *)
Inductive Payload : Type :=
| RoomPayload (room : Room.t)
| GamePayload (state : GameState.t)
| RoomsPayload (all : list Room.t).

(** The manager's fields, the storage it talks to and the trace of the
    listener calls made so far (oldest first). *)
Record Manager : Type := mkManager {
  rooms : JsMap.t Room.t;
  gameStates : JsMap.t GameState.t;
  listeners : JsMap.t (list Callback);
  syncInterval : bool;
  localStorage : LocalStorage;
  delivered : list (Callback * Payload)
}.

Definition with_rooms (r : JsMap.t Room.t) (m : Manager) : Manager :=
  mkManager r (gameStates m) (listeners m) (syncInterval m)
            (localStorage m) (delivered m).

Definition with_gameStates (g : JsMap.t GameState.t) (m : Manager) : Manager :=
  mkManager (rooms m) g (listeners m) (syncInterval m)
            (localStorage m) (delivered m).

Definition with_listeners (l : JsMap.t (list Callback)) (m : Manager) : Manager :=
  mkManager (rooms m) (gameStates m) l (syncInterval m)
            (localStorage m) (delivered m).

Definition with_syncInterval (b : bool) (m : Manager) : Manager :=
  mkManager (rooms m) (gameStates m) (listeners m) b
            (localStorage m) (delivered m).

Definition with_localStorage (s : LocalStorage) (m : Manager) : Manager :=
  mkManager (rooms m) (gameStates m) (listeners m) (syncInterval m)
            s (delivered m).

Definition with_delivered (d : list (Callback * Payload)) (m : Manager) : Manager :=
  mkManager (rooms m) (gameStates m) (listeners m) (syncInterval m)
            (localStorage m) d.

(* ================================================================= *)
(** ** Storage *)

(** The fields of a manager before its constructor body runs. *)
Definition fresh (s : LocalStorage) : Manager :=
  mkManager JsMap.empty JsMap.empty JsMap.empty false s [].

Definition loadFromStorage (m : Manager) : Manager :=
  let m1 :=
    match addaGameRooms (localStorage m) with
    | Some roomsArray =>
        fold_left (fun acc room => with_rooms (JsMap.set (Room.id room) room (rooms acc)) acc)
                  roomsArray m
    | None => m
    end in
  match addaGameStates (localStorage m1) with
  | Some gameStatesArray =>
      fold_left (fun acc state =>
                   with_gameStates (JsMap.set (GameState.roomId state) state (gameStates acc)) acc)
                gameStatesArray m1
  | None => m1
  end.

Definition saveToStorage (clk : Clock) (m : Manager) : Manager :=
  let roomsArray := JsMap.values (rooms m) in
  let gameStatesArray := JsMap.values (gameStates m) in
  let sharedData := SharedData.mk roomsArray gameStatesArray (Date_now clk) in
  with_localStorage
    (mkStorage (Some roomsArray) (Some gameStatesArray) (Some sharedData)) m.

(* ================================================================= *)
(** ** Listener registry *)

Definition notifyListeners (event : string) (data : Payload) (m : Manager) : Manager :=
  match JsMap.get event (listeners m) with
  | Some eventListeners =>
      with_delivered
        (delivered m ++ map (fun callback => (callback, data)) eventListeners) m
  | None => m
  end.

Definition on (event : string) (callback : Callback) (m : Manager) : Manager :=
  let m1 :=
    if JsMap.has event (listeners m) then m
    else with_listeners (JsMap.set event [] (listeners m)) m in
  match JsMap.get event (listeners m1) with
  | Some eventListeners =>
      with_listeners (JsMap.set event (eventListeners ++ [callback]) (listeners m1)) m1
  | None => m1
  end.

(** [a.splice(a.indexOf(c), 1)] when [c] occurs in [a]. *)
Fixpoint remove_first (c : Callback) (a : list Callback) : list Callback :=
  match a with
  | [] => []
  | x :: a' => if Nat.eqb x c then a' else x :: remove_first c a'
  end.

Definition off (event : string) (callback : Callback) (m : Manager) : Manager :=
  match JsMap.get event (listeners m) with
  | Some eventListeners =>
      with_listeners (JsMap.set event (remove_first callback eventListeners) (listeners m)) m
  | None => m
  end.

Definition destroy (m : Manager) : Manager :=
  with_listeners JsMap.empty (with_syncInterval false m).

(* ================================================================= *)
(** ** Reconciliation tick *)

Definition syncRoom (m : Manager) (room : Room.t) : Manager :=
  let overwrite :=
    match JsMap.get (Room.id room) (rooms m) with
    | None => true
    | Some existing => Date_gt (Room.lastUpdated room) (Room.lastUpdated existing)
    end in
  if overwrite then
    notifyListeners ("room:" ++ Room.id room) (RoomPayload room)
      (with_rooms (JsMap.set (Room.id room) room (rooms m)) m)
  else m.

Definition syncGameState (m : Manager) (state : GameState.t) : Manager :=
  let overwrite :=
    match JsMap.get (GameState.roomId state) (gameStates m) with
    | None => true
    | Some existing =>
        Date_gt (GameState.lastUpdated state) (GameState.lastUpdated existing)
    end in
  if overwrite then
    notifyListeners ("game:" ++ GameState.roomId state) (GamePayload state)
      (with_gameStates (JsMap.set (GameState.roomId state) state (gameStates m)) m)
  else m.

Definition syncWithOtherDevices (m : Manager) : Manager :=
  match addaMultiplayerSync (localStorage m) with
  | Some data =>
      let m1 := fold_left syncRoom (SharedData.rooms data) m in
      let m2 := fold_left syncGameState (SharedData.gameStates data) m1 in
      notifyListeners "rooms" (RoomsPayload (JsMap.values (rooms m2))) m2
  | None => m
  end.

(** The constructor: load, then arm the timer. *)
Definition startSync (m : Manager) : Manager := with_syncInterval true m.

Definition newManager (s : LocalStorage) : Manager :=
  startSync (loadFromStorage (fresh s)).

(* ================================================================= *)
(** ** Room management *)

Definition createRoom (clk : Clock) (roomData : RoomData.t) (m : Manager)
  : Room.t * Manager :=
  let room :=
    Room.mk (RoomData.id roomData) (RoomData.name roomData) (RoomData.host roomData)
            (RoomData.players roomData) (RoomData.game roomData)
            (RoomData.status roomData) (RoomData.maxPlayers roomData)
            (RoomData.createdAt roomData) (toISOString clk) in
  (room, saveToStorage clk (with_rooms (JsMap.set (Room.id room) room (rooms m)) m)).

(** [a.includes(s)] on an array of strings. *)
Definition includes (s : string) (a : list string) : bool :=
  existsb (String.eqb s) a.

Definition joinRoom (clk : Clock) (roomId playerName : string) (m : Manager)
  : option Room.t * Manager :=
  match JsMap.get roomId (rooms m) with
  | None => (None, m)
  | Some room =>
      if includes playerName (Room.players room) then (Some room, m)
      else if (Room.maxPlayers room <=? Z.of_nat (List.length (Room.players room)))%Z
      then (None, m)
      else
        let updatedRoom :=
          Room.mk (Room.id room) (Room.name room) (Room.host room)
                  (Room.players room ++ [playerName]) (Room.game room)
                  (Room.status room) (Room.maxPlayers room) (Room.createdAt room)
                  (toISOString clk) in
        (Some updatedRoom,
         saveToStorage clk (with_rooms (JsMap.set roomId updatedRoom (rooms m)) m))
  end.

Definition leaveRoom (clk : Clock) (roomId playerName : string) (m : Manager)
  : option Room.t * Manager :=
  match JsMap.get roomId (rooms m) with
  | None => (None, m)
  | Some room =>
      let updatedPlayers :=
        filter (fun p => negb (String.eqb p playerName)) (Room.players room) in
      match updatedPlayers with
      | [] =>
          (None,
           saveToStorage clk
             (with_gameStates (JsMap.delete roomId (gameStates m))
                (with_rooms (JsMap.delete roomId (rooms m)) m)))
      | first :: _ =>
          (* here [updatedPlayers.length > 0] holds and
             [updatedPlayers[0]] is [first] *)
          let updatedRoom :=
            Room.mk (Room.id room) (Room.name room)
                    (if String.eqb (Room.host room) playerName then first
                     else Room.host room)
                    updatedPlayers (Room.game room) (Room.status room)
                    (Room.maxPlayers room) (Room.createdAt room)
                    (toISOString clk) in
          (Some updatedRoom,
           saveToStorage clk (with_rooms (JsMap.set roomId updatedRoom (rooms m)) m))
      end
  end.

Definition updateRoomStatus (clk : Clock) (roomId : string) (status : Status)
  (m : Manager) : option Room.t * Manager :=
  match JsMap.get roomId (rooms m) with
  | None => (None, m)
  | Some room =>
      let updatedRoom :=
        Room.mk (Room.id room) (Room.name room) (Room.host room)
                (Room.players room) (Room.game room) status
                (Room.maxPlayers room) (Room.createdAt room) (toISOString clk) in
      (Some updatedRoom,
       saveToStorage clk (with_rooms (JsMap.set roomId updatedRoom (rooms m)) m))
  end.

Definition getRoom (roomId : string) (m : Manager) : option Room.t :=
  JsMap.get roomId (rooms m).

Definition getAllRooms (m : Manager) : list Room.t := JsMap.values (rooms m).

(* ================================================================= *)
(** ** Game state management *)

Definition updateGameState (clk : Clock) (roomId : string) (gameData : Json)
  (m : Manager) : Manager :=
  let gameState := GameState.mk roomId None (Some gameData) None (toISOString clk) in
  saveToStorage clk (with_gameStates (JsMap.set roomId gameState (gameStates m)) m).

Definition getGameState (roomId : string) (m : Manager) : option GameState.t :=
  JsMap.get roomId (gameStates m).

(* ================================================================= *)
(** ** The room screen's call of [createRoom] *)

Module RoomSystem.

(** The [roomData] literal of the screen's [createRoom] handler:
    [generatedId] is the value of [generateRoomId()], [trimmedName] that of
    [newRoomName.trim()], [created] that of [new Date()]. *)
Definition roomData (generatedId trimmedName username selectedGame : string)
  (maxPlayers : Z) (created : Z) : RoomData.t :=
  RoomData.mk generatedId trimmedName username [username] selectedGame
              waiting maxPlayers (Instant created).

(** What the screen's [joinRoom] handler ends with: one of its four error
    messages, or the room it makes the current room. *)
Inductive JoinResult : Type :=
| RoomNotFound                        (* 'Room not found' *)
| GameInProgress                      (* 'Game is already in progress' *)
| RoomIsFull                          (* 'Room is full' *)
| AlreadyInRoom (room : Room.t)       (* already in room: just enter it *)
| FailedToJoin                        (* 'Failed to join room' *)
| Joined (updatedRoom : Room.t).

(** The screen's [joinRoom] handler from the point where its one-second
    wait is over; [upperRoomId] is the value of [roomId.toUpperCase()]. *)
Definition joinRoom (clk : Clock) (upperRoomId username : string) (m : Manager)
  : JoinResult * Manager :=
  match getRoom upperRoomId m with
  | None => (RoomNotFound, m)
  | Some room =>
      match Room.status room with
      | playing => (GameInProgress, m)
      | _ =>
          if (Room.maxPlayers room <=? Z.of_nat (List.length (Room.players room)))%Z
          then (RoomIsFull, m)
          else if includes username (Room.players room)
          then (AlreadyInRoom room, m)
          else
            match joinRoom clk upperRoomId username m with
            | (None, m') => (FailedToJoin, m')
            | (Some updatedRoom, m') => (Joined updatedRoom, m')
            end
      end
  end.

(** The screen's [startGame] handler: [currentRoom] is the component's
    copy of the room it shows.  The result is the new [currentRoom]. *)
Definition startGame (clk : Clock) (currentRoom : option Room.t) (username : string)
  (m : Manager) : option Room.t * Manager :=
  match currentRoom with
  | None => (currentRoom, m)
  | Some current =>
      if negb (String.eqb (Room.host current) username) then (currentRoom, m)
      else updateRoomStatus clk (Room.id current) playing m
  end.

(** The list update of the [handleRoomUpdate] listener:
    [prev.map(room => room.id === updatedRoom.id ? updatedRoom : room)]. *)
Definition handleRoomUpdate (updatedRoom : Room.t) (prev : list Room.t) : list Room.t :=
  map (fun room =>
         if String.eqb (Room.id room) (Room.id updatedRoom) then updatedRoom else room)
      prev.

(** The text of an integer in a template literal. *)
Definition Number_toString (n : Z) : string := NilZero.string_of_int (Z.to_int n).

(** [formatTimeAgo]: [now] and [date] are the epoch values of [new Date()]
    and of the argument, both valid dates; [Math.floor(a / b)] with a
    positive [b] is [a / b] on [Z]. *)
Definition formatTimeAgo (now date : Z) : string :=
  let diffMs := (now - date)%Z in
  let diffMins := (diffMs / 60000)%Z in
  if (diffMins <? 1)%Z then "Just now"
  else if (diffMins <? 60)%Z then Number_toString diffMins ++ "m ago"
  else
    let diffHours := (diffMins / 60)%Z in
    if (diffHours <? 24)%Z then Number_toString diffHours ++ "h ago"
    else
      let diffDays := (diffHours / 24)%Z in
      Number_toString diffDays ++ "d ago".

End RoomSystem.

(* ================================================================= *)
(** ** Sequences of calls *)

(** What can happen to a manager: a call of one of its public methods, a
    tick of its timer, or a write to [localStorage] made by another tab or
    device, which replaces what the manager finds there. *)
Inductive Call : Type :=
| CallCreateRoom (clk : Clock) (roomData : RoomData.t)
| CallJoinRoom (clk : Clock) (roomId playerName : string)
| CallLeaveRoom (clk : Clock) (roomId playerName : string)
| CallUpdateRoomStatus (clk : Clock) (roomId : string) (status : Status)
| CallUpdateGameState (clk : Clock) (roomId : string) (gameData : Json)
| CallOn (event : string) (callback : Callback)
| CallOff (event : string) (callback : Callback)
| CallDestroy
| Tick
| ForeignWrite (s : LocalStorage).

Definition perform (m : Manager) (c : Call) : Manager :=
  match c with
  | CallCreateRoom clk roomData => snd (createRoom clk roomData m)
  | CallJoinRoom clk roomId playerName => snd (joinRoom clk roomId playerName m)
  | CallLeaveRoom clk roomId playerName => snd (leaveRoom clk roomId playerName m)
  | CallUpdateRoomStatus clk roomId status => snd (updateRoomStatus clk roomId status m)
  | CallUpdateGameState clk roomId gameData => updateGameState clk roomId gameData m
  | CallOn event callback => on event callback m
  | CallOff event callback => off event callback m
  | CallDestroy => destroy m
  | Tick => syncWithOtherDevices m
  | ForeignWrite s => with_localStorage s m
  end.

(* ================================================================= *)
(** ** Vocabulary of the statements *)

(** What [saveToStorage] leaves in the storage: the values of the two maps,
    in insertion order, under all three keys. *)
Definition persisted (clk : Clock) (m : Manager) : Prop :=
  addaGameRooms (localStorage m) = Some (JsMap.values (rooms m)) /\
  addaGameStates (localStorage m) = Some (JsMap.values (gameStates m)) /\
  addaMultiplayerSync (localStorage m) =
    Some (SharedData.mk (JsMap.values (rooms m)) (JsMap.values (gameStates m))
                        (Date_now clk)).

(** The callbacks registered on a channel, in the order of the array. *)
Definition subscribers (event : string) (m : Manager) : list Callback :=
  match JsMap.get event (listeners m) with
  | Some eventListeners => eventListeners
  | None => []
  end.

(** A room is within its capacity and, while it has players, its host is
    one of them. *)
Definition room_invariant (room : Room.t) : Prop :=
  (Z.of_nat (List.length (Room.players room)) <= Room.maxPlayers room)%Z /\
  (Room.players room <> [] -> In (Room.host room) (Room.players room)).

(** Every room of the repository satisfies [room_invariant] and has a
    player. *)
Definition repository_invariant (m : Manager) : Prop :=
  forall (key : string) (room : Room.t),
    JsMap.get key (rooms m) = Some room ->
    room_invariant room /\ Room.players room <> [].

(** The same conditions on the argument of [createRoom]. *)
Definition roomData_invariant (roomData : RoomData.t) : Prop :=
  (Z.of_nat (List.length (RoomData.players roomData)) <= RoomData.maxPlayers roomData)%Z /\
  In (RoomData.host roomData) (RoomData.players roomData).

(** The outcome of one comparison of the tick: the remote entity is taken
    when there is no local one or when its date is later. *)
Definition merged {A : Type} (stamp : A -> Timestamp) (local : option A) (remote : A) : A :=
  match local with
  | None => remote
  | Some existing => if Date_gt (stamp remote) (stamp existing) then remote else existing
  end.

(** What the merge law says of one entity: [before] is the local entity
    before the tick, [after] the local entity after it. *)
Definition last_write_wins {A : Type} (stamp : A -> Timestamp)
  (before after : option A) (remote : A) : Prop :=
  match before with
  | None => after = Some remote
  | Some local =>
      (Date_gt (stamp remote) (stamp local) = true -> after = Some remote) /\
      (Date_gt (stamp remote) (stamp local) = false -> after = Some local) /\
      (remote <> local ->
       (after = Some remote <-> Date_gt (stamp remote) (stamp local) = true))
  end.

(** [m'] differs from [m] at most in the room and game state of [roomId]
    and in the storage: every other room and game state, the registry, the
    timer and the trace of listener calls are the same. *)
Definition touches_only_room (roomId : string) (m m' : Manager) : Prop :=
  (forall key : string,
      key <> roomId ->
      getRoom key m' = getRoom key m /\ getGameState key m' = getGameState key m) /\
  listeners m' = listeners m /\
  syncInterval m' = syncInterval m /\
  delivered m' = delivered m.

(** The test of the tick: no local entity, or a remote date that is later. *)
Definition wins {A : Type} (stamp : A -> Timestamp) (local : option A) (remote : A) : bool :=
  match local with
  | None => true
  | Some existing => Date_gt (stamp remote) (stamp existing)
  end.

(** The listener calls that a tick on [m] owes to one remote room, and to
    one remote game state: none if the entity does not pass the test
    against the repository of [m], else one call per subscriber of the
    entity's channel. *)
Definition room_calls (m : Manager) (remote : Room.t) : list (Callback * Payload) :=
  if wins Room.lastUpdated (getRoom (Room.id remote) m) remote
  then map (fun callback => (callback, RoomPayload remote))
           (subscribers ("room:" ++ Room.id remote) m)
  else [].

Definition game_calls (m : Manager) (remote : GameState.t) : list (Callback * Payload) :=
  if wins GameState.lastUpdated (getGameState (GameState.roomId remote) m) remote
  then map (fun callback => (callback, GamePayload remote))
           (subscribers ("game:" ++ GameState.roomId remote) m)
  else [].

(** One comparison of the tick on a map of entities: what [syncRoom] does
    to [rooms] and [syncGameState] to [gameStates]. *)
Definition lww_step {A : Type} (key : A -> string) (stamp : A -> Timestamp)
  (entities : JsMap.t A) (remote : A) : JsMap.t A :=
  match JsMap.get (key remote) entities with
  | Some existing =>
      if Date_gt (stamp remote) (stamp existing)
      then JsMap.set (key remote) remote entities else entities
  | None => JsMap.set (key remote) remote entities
  end.

(** A remote entity that a tick would leave aside: there is a local entity
    with its id, and the remote date is not later. *)
Definition settled {A : Type} (key : A -> string) (stamp : A -> Timestamp)
  (entities : JsMap.t A) (remote : A) : Prop :=
  exists existing : A,
    JsMap.get (key remote) entities = Some existing /\
    Date_gt (stamp remote) (stamp existing) = false.

(** The keys of the map are pairwise distinct and every entity sits under
    its own id. *)
Definition keyed_by {V : Type} (key : V -> string) (m : JsMap.t V) : Prop :=
  NoDup (JsMap.keys m) /\ Forall (fun e => fst e = key (snd e)) m.

Definition well_keyed (m : Manager) : Prop :=
  keyed_by Room.id (rooms m) /\ keyed_by GameState.roomId (gameStates m).

(* ================================================================= *)
(** ** A small scenario used by the concrete checks below *)

Module Scenario.

Definition emptyStorage : LocalStorage := mkStorage None None None.

Definition noon : Clock := mkClock 1000 1000.
Definition later : Clock := mkClock 2500 2500.

(** The manager of a first visit: nothing stored yet. *)
Definition start : Manager := newManager emptyStorage.

(** The room the screen creates for alice: "Friends", game "Spy", two seats. *)
Definition friendsData : RoomData.t :=
  RoomSystem.roomData "AB12CD" "Friends" "alice" "Spy" 2 1000.

Definition friends : Room.t := fst (createRoom noon friendsData start).
Definition afterCreate : Manager := snd (createRoom noon friendsData start).

Definition afterJoin : Manager := snd (joinRoom later "AB12CD" "bob" afterCreate).

Definition friendsWithBob : Room.t :=
  Room.mk "AB12CD" "Friends" "alice" ["alice"; "bob"] "Spy" waiting 2
          (Instant 1000) (Instant 2500).

(** A second tab of the same browser: its manager still has the room as
    created, the storage already holds what the first tab wrote when bob
    joined. *)
Definition otherTab : Manager :=
  with_localStorage (localStorage afterJoin) afterCreate.

(** A shared record that lists the room twice, the later version first. *)
Definition friendsRenamed : Room.t :=
  Room.mk "AB12CD" "Best friends" "alice" ["alice"] "Spy" waiting 2
          (Instant 1000) (Instant 5000).

Definition repeatedIds : Manager :=
  with_localStorage
    (mkStorage None None
       (Some (SharedData.mk [friendsRenamed; friendsWithBob] [] 5000)))
    afterCreate.

End Scenario.

(* ================================================================= *)
(** ** Facts about [JsMap] *)

Module JsMapFacts.
Section Facts.
Context {V : Type}.
Implicit Types (k : string) (v : V) (m : JsMap.t V).

Lemma get_set_same k v m : JsMap.get k (JsMap.set k v m) = Some v.
Proof.
  induction m as [|[k' v'] m IH]; simpl.
  - now rewrite String.eqb_refl.
  - destruct (String.eqb k k') eqn:E; simpl; rewrite ?String.eqb_refl, ?E; auto.
Qed.

Lemma get_set_other k k' v m :
  k <> k' -> JsMap.get k' (JsMap.set k v m) = JsMap.get k' m.
Proof.
  intros Hne. induction m as [|[k0 v0] m IH]; simpl.
  - destruct (String.eqb k' k) eqn:E; auto.
    apply String.eqb_eq in E. congruence.
  - destruct (String.eqb k k0) eqn:E; simpl.
    + apply String.eqb_eq in E. subst k0.
      destruct (String.eqb k' k) eqn:E'; auto.
      apply String.eqb_eq in E'. congruence.
    + now rewrite IH.
Qed.

Lemma get_delete_same k m : JsMap.get k (JsMap.delete k m) = None.
Proof.
  unfold JsMap.delete.
  induction m as [|[k' v'] m IH]; simpl; auto.
  destruct (String.eqb k k') eqn:E; simpl; auto.
  now rewrite E.
Qed.

Lemma get_delete_other k k' m :
  k <> k' -> JsMap.get k' (JsMap.delete k m) = JsMap.get k' m.
Proof.
  intros Hne. unfold JsMap.delete.
  induction m as [|[k0 v0] m IH]; simpl; auto.
  destruct (String.eqb k k0) eqn:E; simpl.
  - apply String.eqb_eq in E. subst k0.
    destruct (String.eqb k' k) eqn:E'; auto.
    apply String.eqb_eq in E'. congruence.
  - now rewrite IH.
Qed.

(** What a lookup finds after a [set], whatever the two keys are. *)
Lemma get_set k k' v m :
  JsMap.get k' (JsMap.set k v m) =
  if String.eqb k k' then Some v else JsMap.get k' m.
Proof.
  destruct (String.eqb k k') eqn:E.
  - apply String.eqb_eq in E. subst. apply get_set_same.
  - apply String.eqb_neq in E. now apply get_set_other.
Qed.

(** [set] keeps the keys pairwise distinct. *)
Lemma set_keys_NoDup k v m :
  NoDup (JsMap.keys m) -> NoDup (JsMap.keys (JsMap.set k v m)).
Proof.
  unfold JsMap.keys.
  induction m as [|[k0 v0] m IH]; simpl; intros Hnd.
  - constructor; [intros []|constructor].
  - inversion Hnd as [|? ? Hnotin Hnd']; subst.
    destruct (String.eqb k k0) eqn:E; simpl.
    + apply String.eqb_eq in E. subst. now constructor.
    + constructor; auto.
      intros Hin. apply Hnotin. clear - Hin E.
      induction m as [|[k1 v1] m IH]; simpl in *.
      * destruct Hin as [->|[]]. now rewrite String.eqb_refl in E.
      * destruct (String.eqb k k1) eqn:E1; simpl in *.
        -- apply String.eqb_eq in E1. subst. destruct Hin; auto.
        -- destruct Hin; auto.
Qed.

Lemma delete_keys_NoDup k m :
  NoDup (JsMap.keys m) -> NoDup (JsMap.keys (JsMap.delete k m)).
Proof.
  unfold JsMap.keys, JsMap.delete.
  induction m as [|[k0 v0] m IH]; simpl; intros Hnd; auto.
  inversion Hnd as [|? ? Hnotin Hnd']; subst.
  destruct (String.eqb k k0); simpl; auto.
  constructor; auto.
  intros Hin. apply Hnotin.
  apply in_map_iff in Hin. destruct Hin as [e [He Hin]].
  apply filter_In in Hin. apply in_map_iff. exists e. tauto.
Qed.

End Facts.
End JsMapFacts.

(** [includes] decides membership. *)
Lemma includes_In (s : string) (a : list string) :
  includes s a = true <-> In s a.
Proof.
  unfold includes. rewrite existsb_exists. split.
  - intros [x [Hin Heq]]. apply String.eqb_eq in Heq. now subst.
  - intros Hin. exists s. split; auto. apply String.eqb_refl.
Qed.

Lemma includes_app_last (s : string) (a : list string) :
  includes s (a ++ [s]) = true.
Proof. apply includes_In, in_or_app. right. now left. Qed.

Lemma not_includes (s : string) (a : list string) :
  ~ In s a -> includes s a = false.
Proof.
  intros H. destruct (includes s a) eqn:E; auto.
  apply includes_In in E. contradiction.
Qed.


(* ================================================================= *)
(** ** [createRoom] *)

(** [saveToStorage] touches the storage only. *)
Lemma rooms_saveToStorage (clk : Clock) (m : Manager) :
  rooms (saveToStorage clk m) = rooms m.
Proof. reflexivity. Qed.

Lemma gameStates_saveToStorage (clk : Clock) (m : Manager) :
  gameStates (saveToStorage clk m) = gameStates m.
Proof. reflexivity. Qed.

Lemma saveToStorage_persisted (clk : Clock) (m : Manager) :
  persisted clk (saveToStorage clk m).
Proof. repeat split. Qed.

(** C1, as the code has it.  [createRoom] returns the supplied
    specification, every field of it as it was passed, with [lastUpdated]
    set to the reading of the clock, stores that room under its id and
    persists it; [players], [host] and [status] are copied from the
    specification like the rest.  For the specification that the room
    screen assembles, the room has [players = [host]] and
    [status = waiting]. *)
Theorem createRoom_stamps_and_stores :
  (forall (clk : Clock) (roomData : RoomData.t) (m : Manager),
      let room := fst (createRoom clk roomData m) in
      let m' := snd (createRoom clk roomData m) in
      room =
        Room.mk (RoomData.id roomData) (RoomData.name roomData)
                (RoomData.host roomData) (RoomData.players roomData)
                (RoomData.game roomData) (RoomData.status roomData)
                (RoomData.maxPlayers roomData) (RoomData.createdAt roomData)
                (Instant (newDate clk)) /\
      Room.name room = RoomData.name roomData /\
      Room.game room = RoomData.game roomData /\
      Room.maxPlayers room = RoomData.maxPlayers roomData /\
      Room.createdAt room = RoomData.createdAt roomData /\
      Room.players room = RoomData.players roomData /\
      Room.host room = RoomData.host roomData /\
      Room.status room = RoomData.status roomData /\
      Room.id room = RoomData.id roomData /\
      Room.lastUpdated room = Instant (newDate clk) /\
      getRoom (RoomData.id roomData) m' = Some room /\
      persisted clk m') /\
  (forall (clk : Clock) (generatedId trimmedName username selectedGame : string)
          (seats created : Z) (m : Manager),
      let roomData :=
        RoomSystem.roomData generatedId trimmedName username selectedGame
                            seats created in
      let room := fst (createRoom clk roomData m) in
      room =
        Room.mk generatedId trimmedName username [username] selectedGame waiting
                seats (Instant created) (Instant (newDate clk)) /\
      Room.players room = [Room.host room] /\
      Room.status room = waiting /\
      Room.lastUpdated room = Instant (newDate clk) /\
      getRoom generatedId (snd (createRoom clk roomData m)) = Some room).
Proof.
  split.
  - intros clk roomData m room m'. subst room m'. simpl.
    repeat split.
    unfold getRoom. simpl. apply JsMapFacts.get_set_same.
  - intros clk gid nm user gm seats created m roomData room.
    subst roomData room. simpl. repeat split.
    unfold getRoom. simpl. apply JsMapFacts.get_set_same.
Qed.

(** C1 as worded fails: a specification with two players and status
    [playing] comes back, and is stored, as it was passed. *)
Lemma createRoom_keeps_supplied_players_and_status :
  let roomData :=
    RoomData.mk "ZZ99ZZ" "Rematch" "alice" ["alice"; "bob"] "Spy" playing 4
                (Instant 900) in
  let room := fst (createRoom Scenario.noon roomData Scenario.start) in
  Room.players room = ["alice"; "bob"] /\
  Room.players room <> [Room.host room] /\
  Room.status room = playing /\
  Room.status room <> waiting /\
  getRoom "ZZ99ZZ" (snd (createRoom Scenario.noon roomData Scenario.start))
    = Some room.
Proof.
  simpl. repeat split; discriminate.
Qed.

(* ================================================================= *)
(** ** [joinRoom] *)

(** The three ways out of [joinRoom] that leave everything as it was. *)
Lemma joinRoom_missing (clk : Clock) (roomId p : string) (m : Manager) :
  getRoom roomId m = None -> joinRoom clk roomId p m = (None, m).
Proof. unfold getRoom, joinRoom. now intros ->. Qed.

Lemma joinRoom_member (clk : Clock) (roomId p : string) (m : Manager) (room : Room.t) :
  getRoom roomId m = Some room ->
  In p (Room.players room) ->
  joinRoom clk roomId p m = (Some room, m).
Proof.
  unfold getRoom, joinRoom. intros -> Hin.
  apply includes_In in Hin. now rewrite Hin.
Qed.

Lemma joinRoom_at_capacity (clk : Clock) (roomId p : string) (m : Manager) (room : Room.t) :
  getRoom roomId m = Some room ->
  ~ In p (Room.players room) ->
  (Room.maxPlayers room <= Z.of_nat (List.length (Room.players room)))%Z ->
  joinRoom clk roomId p m = (None, m).
Proof.
  unfold getRoom, joinRoom. intros -> Hnotin Hfull.
  rewrite (not_includes _ _ Hnotin).
  apply Z.leb_le in Hfull. now rewrite Hfull.
Qed.

(** The one way that changes something: the player is appended. *)
Lemma joinRoom_appends (clk : Clock) (roomId p : string) (m : Manager) (room : Room.t) :
  getRoom roomId m = Some room ->
  ~ In p (Room.players room) ->
  (Z.of_nat (List.length (Room.players room)) < Room.maxPlayers room)%Z ->
  let updatedRoom :=
    Room.mk (Room.id room) (Room.name room) (Room.host room)
            (Room.players room ++ [p]) (Room.game room) (Room.status room)
            (Room.maxPlayers room) (Room.createdAt room) (Instant (newDate clk)) in
  joinRoom clk roomId p m =
    (Some updatedRoom,
     saveToStorage clk (with_rooms (JsMap.set roomId updatedRoom (rooms m)) m)).
Proof.
  unfold getRoom, joinRoom. intros -> Hnotin Hroom.
  rewrite (not_includes _ _ Hnotin).
  apply Z.leb_gt in Hroom. now rewrite Hroom.
Qed.

(** C3.  [joinRoom] is idempotent.  A player who is already in the room
    gets the room back as it is and nothing changes: neither the
    repository, nor the storage, nor the trace.  Hence a second
    [joinRoom] with the same player, whatever the first one did and
    whatever the clock shows by then, returns what the first returned and
    leaves the manager, and so [players], as the first call left it. *)
Theorem joinRoom_idempotent (clk clk' : Clock) (roomId p : string) (m : Manager) :
  (forall room : Room.t,
      getRoom roomId m = Some room ->
      In p (Room.players room) ->
      joinRoom clk roomId p m = (Some room, m)) /\
  joinRoom clk' roomId p (snd (joinRoom clk roomId p m)) = joinRoom clk roomId p m.
Proof.
  split.
  - intros room. apply joinRoom_member.
  - unfold joinRoom at 2 3.
    destruct (JsMap.get roomId (rooms m)) as [room|] eqn:Hget; simpl.
    + destruct (includes p (Room.players room)) eqn:Hinc; simpl.
      * apply joinRoom_member with (room := room); auto.
        now apply includes_In.
      * destruct (Room.maxPlayers room <=? _)%Z eqn:Hfull; simpl.
        -- apply joinRoom_at_capacity with (room := room); auto.
           ++ intros Hin. apply includes_In in Hin. congruence.
           ++ now apply Z.leb_le.
        -- apply joinRoom_member.
           ++ unfold getRoom. simpl. apply JsMapFacts.get_set_same.
           ++ simpl. apply in_or_app. right. now left.
    + now apply joinRoom_missing.
Qed.

Lemma joinRoom_idempotent_witness :
  getRoom "AB12CD" Scenario.afterJoin
    = Some (Room.mk "AB12CD" "Friends" "alice" ["alice"; "bob"] "Spy" waiting 2
                    (Instant 1000) (Instant 2500)) /\
  In "bob" ["alice"; "bob"] /\
  joinRoom Scenario.noon "AB12CD" "bob" Scenario.afterJoin
    = (Some (Room.mk "AB12CD" "Friends" "alice" ["alice"; "bob"] "Spy" waiting 2
                     (Instant 1000) (Instant 2500)),
       Scenario.afterJoin).
Proof.
  split; [reflexivity|]. split; [simpl; auto|].
  apply (proj1 (joinRoom_idempotent Scenario.noon Scenario.later "AB12CD" "bob"
                                    Scenario.afterJoin)).
  - reflexivity.
  - simpl. auto.
Defined.

(** C4.  A room whose player list has reached [maxPlayers] turns away a
    player who is not a member: the result is [null] and the manager,
    repository, storage and trace alike, is exactly what it was. *)
Theorem joinRoom_full_is_atomic
  (clk : Clock) (roomId p : string) (m : Manager) (room : Room.t) :
  getRoom roomId m = Some room ->
  ~ In p (Room.players room) ->
  (Room.maxPlayers room <= Z.of_nat (List.length (Room.players room)))%Z ->
  joinRoom clk roomId p m = (None, m).
Proof. apply joinRoom_at_capacity. Qed.

Lemma joinRoom_full_is_atomic_witness :
  getRoom "AB12CD" Scenario.afterJoin
    = Some (Room.mk "AB12CD" "Friends" "alice" ["alice"; "bob"] "Spy" waiting 2
                    (Instant 1000) (Instant 2500)) /\
  ~ In "carol" ["alice"; "bob"] /\
  (2 <= Z.of_nat (List.length ["alice"; "bob"]))%Z /\
  joinRoom Scenario.noon "AB12CD" "carol" Scenario.afterJoin
    = (None, Scenario.afterJoin).
Proof.
  assert (Hnot : ~ In "carol" ["alice"; "bob"]).
  { simpl. intros [H|[H|[]]]; discriminate. }
  split; [reflexivity|]. split; [exact Hnot|]. split; [simpl; lia|].
  apply (joinRoom_full_is_atomic Scenario.noon "AB12CD" "carol" Scenario.afterJoin
           (room := Room.mk "AB12CD" "Friends" "alice" ["alice"; "bob"] "Spy"
                            waiting 2 (Instant 1000) (Instant 2500))).
  - reflexivity.
  - exact Hnot.
  - simpl. lia.
Defined.

(* ================================================================= *)
(** ** [leaveRoom] *)

(** [players.filter(q => q !== p)] *)
Lemma filter_out_absent (p : string) (l : list string) :
  ~ In p l -> filter (fun q => negb (String.eqb q p)) l = l.
Proof.
  induction l as [|q l IH]; simpl; intros Hnotin; auto.
  destruct (String.eqb q p) eqn:E; simpl.
  - apply String.eqb_eq in E. subst. exfalso. apply Hnotin. now left.
  - f_equal. apply IH. intros Hin. apply Hnotin. now right.
Qed.

Lemma filter_out_In (p q : string) (l : list string) :
  In q (filter (fun x => negb (String.eqb x p)) l) <-> In q l /\ q <> p.
Proof.
  rewrite filter_In. split; intros [Hin Hne]; split; auto.
  - intros ->. now rewrite String.eqb_refl in Hne.
  - apply String.eqb_neq in Hne. now rewrite Hne.
Qed.

Lemma leaveRoom_missing (clk : Clock) (roomId p : string) (m : Manager) :
  getRoom roomId m = None -> leaveRoom clk roomId p m = (None, m).
Proof. unfold getRoom, leaveRoom. now intros ->. Qed.

Lemma leaveRoom_empties (clk : Clock) (roomId p : string) (m : Manager) (room : Room.t) :
  getRoom roomId m = Some room ->
  filter (fun q => negb (String.eqb q p)) (Room.players room) = [] ->
  leaveRoom clk roomId p m =
    (None,
     saveToStorage clk
       (with_gameStates (JsMap.delete roomId (gameStates m))
          (with_rooms (JsMap.delete roomId (rooms m)) m))).
Proof. unfold getRoom, leaveRoom. now intros -> ->. Qed.

Lemma leaveRoom_remaining
  (clk : Clock) (roomId p : string) (m : Manager) (room : Room.t)
  (first : string) (rest : list string) :
  getRoom roomId m = Some room ->
  filter (fun q => negb (String.eqb q p)) (Room.players room) = first :: rest ->
  let updatedRoom :=
    Room.mk (Room.id room) (Room.name room)
            (if String.eqb (Room.host room) p then first else Room.host room)
            (first :: rest) (Room.game room) (Room.status room)
            (Room.maxPlayers room) (Room.createdAt room) (Instant (newDate clk)) in
  leaveRoom clk roomId p m =
    (Some updatedRoom,
     saveToStorage clk (with_rooms (JsMap.set roomId updatedRoom (rooms m)) m)).
Proof. unfold getRoom, leaveRoom. now intros -> ->. Qed.

(** C5.  When the only player of a room leaves, [leaveRoom] returns [null],
    the room and its game state are gone from the repository, so that
    [getRoom] and [getGameState] both answer [null] afterwards, and the
    storage holds the repository without them. *)
Theorem leaveRoom_last_player
  (clk : Clock) (roomId p : string) (m : Manager) (room : Room.t) :
  getRoom roomId m = Some room ->
  Room.players room = [p] ->
  fst (leaveRoom clk roomId p m) = None /\
  getRoom roomId (snd (leaveRoom clk roomId p m)) = None /\
  getGameState roomId (snd (leaveRoom clk roomId p m)) = None /\
  persisted clk (snd (leaveRoom clk roomId p m)).
Proof.
  intros Hget Hplayers.
  rewrite (@leaveRoom_empties clk roomId p m room Hget).
  - simpl. unfold getRoom, getGameState. simpl.
    rewrite !JsMapFacts.get_delete_same. repeat split.
  - rewrite Hplayers. simpl. now rewrite String.eqb_refl.
Qed.

(** C6, as the code has it.  When players remain after [leaveRoom], a room
    is returned whose players are the remaining ones; its host is the first
    of them if the player who left was the host, and is the host as before
    if not. *)
Theorem leaveRoom_host
  (clk : Clock) (roomId p : string) (m : Manager) (room : Room.t) :
  getRoom roomId m = Some room ->
  filter (fun q => negb (String.eqb q p)) (Room.players room) <> [] ->
  exists room' : Room.t,
    fst (leaveRoom clk roomId p m) = Some room' /\
    getRoom roomId (snd (leaveRoom clk roomId p m)) = Some room' /\
    Room.players room' =
      filter (fun q => negb (String.eqb q p)) (Room.players room) /\
    (Room.host room = p -> hd_error (Room.players room') = Some (Room.host room')) /\
    (Room.host room <> p -> Room.host room' = Room.host room).
Proof.
  intros Hget Hrest.
  destruct (filter (fun q => negb (String.eqb q p)) (Room.players room))
    as [|first rest] eqn:Hfilter; [congruence|].
  rewrite (@leaveRoom_remaining clk roomId p m room first rest Hget Hfilter). simpl.
  eexists. split; [reflexivity|]. simpl.
  split; [unfold getRoom; simpl; apply JsMapFacts.get_set_same|].
  split; [reflexivity|]. split.
  - intros ->. now rewrite String.eqb_refl.
  - intros Hne. apply String.eqb_neq in Hne. now rewrite Hne.
Qed.

Lemma leaveRoom_last_player_witness :
  let m := updateGameState Scenario.later "AB12CD" "round 1" Scenario.afterCreate in
  getRoom "AB12CD" m = Some Scenario.friends /\
  Room.players Scenario.friends = ["alice"] /\
  getGameState "AB12CD" m <> None /\
  fst (leaveRoom Scenario.later "AB12CD" "alice" m) = None /\
  getRoom "AB12CD" (snd (leaveRoom Scenario.later "AB12CD" "alice" m)) = None /\
  getGameState "AB12CD" (snd (leaveRoom Scenario.later "AB12CD" "alice" m)) = None /\
  persisted Scenario.later (snd (leaveRoom Scenario.later "AB12CD" "alice" m)).
Proof.
  intros m.
  split; [reflexivity|]. split; [reflexivity|]. split; [discriminate|].
  apply (@leaveRoom_last_player Scenario.later "AB12CD" "alice" m Scenario.friends);
    reflexivity.
Defined.

Lemma leaveRoom_host_witness :
  exists room : Room.t,
    getRoom "AB12CD" Scenario.afterJoin = Some room /\
    filter (fun q => negb (String.eqb q "alice")) (Room.players room) <> [] /\
    exists room' : Room.t,
      fst (leaveRoom Scenario.later "AB12CD" "alice" Scenario.afterJoin) = Some room' /\
      getRoom "AB12CD" (snd (leaveRoom Scenario.later "AB12CD" "alice" Scenario.afterJoin))
        = Some room' /\
      Room.players room' =
        filter (fun q => negb (String.eqb q "alice")) (Room.players room) /\
      (Room.host room = "alice" ->
       hd_error (Room.players room') = Some (Room.host room')) /\
      (Room.host room <> "alice" -> Room.host room' = Room.host room).
Proof.
  eexists. split; [reflexivity|]. split; [simpl; discriminate|].
  apply (@leaveRoom_host Scenario.later "AB12CD" "alice" Scenario.afterJoin).
  - reflexivity.
  - simpl. discriminate.
Defined.

(** C6 as worded fails in its "only if" half: bob, who is not the host,
    leaves the room of alice and bob; the host of the returned room is
    alice as before, and alice is also the first of the remaining players. *)
Lemma leaveRoom_host_is_first_though_guest_left :
  exists room room' : Room.t,
    getRoom "AB12CD" Scenario.afterJoin = Some room /\
    fst (leaveRoom Scenario.later "AB12CD" "bob" Scenario.afterJoin) = Some room' /\
    Room.players room' = ["alice"] /\
    hd_error (Room.players room') = Some (Room.host room') /\
    Room.host room <> "bob".
Proof.
  do 2 eexists. split; [reflexivity|]. split; [reflexivity|].
  simpl. repeat split. discriminate.
Qed.




(* ================================================================= *)
(** ** The listener registry *)

Lemma subscribers_on (event : string) (callback : Callback) (m : Manager) :
  subscribers event (on event callback m) = subscribers event m ++ [callback].
Proof.
  unfold subscribers, on, JsMap.has.
  destruct (JsMap.get event (listeners m)) as [l|] eqn:Hget; simpl.
  - rewrite Hget. simpl. now rewrite JsMapFacts.get_set_same.
  - rewrite JsMapFacts.get_set_same. simpl. now rewrite JsMapFacts.get_set_same.
Qed.

Lemma delivered_on (event : string) (callback : Callback) (m : Manager) :
  delivered (on event callback m) = delivered m.
Proof.
  unfold on, JsMap.has.
  destruct (JsMap.get event (listeners m)) as [l|] eqn:Hget; simpl.
  - now rewrite Hget.
  - now rewrite JsMapFacts.get_set_same.
Qed.

Lemma notifyListeners_spec (event : string) (data : Payload) (m : Manager) :
  notifyListeners event data m =
  with_delivered
    (delivered m ++ map (fun callback => (callback, data)) (subscribers event m)) m.
Proof.
  unfold notifyListeners, subscribers.
  destruct (JsMap.get event (listeners m)); auto.
  simpl. rewrite app_nil_r. now destruct m.
Qed.

Lemma rooms_notifyListeners (event : string) (data : Payload) (m : Manager) :
  rooms (notifyListeners event data m) = rooms m.
Proof. now rewrite notifyListeners_spec. Qed.

Lemma gameStates_notifyListeners (event : string) (data : Payload) (m : Manager) :
  gameStates (notifyListeners event data m) = gameStates m.
Proof. now rewrite notifyListeners_spec. Qed.

Lemma localStorage_notifyListeners (event : string) (data : Payload) (m : Manager) :
  localStorage (notifyListeners event data m) = localStorage m.
Proof. now rewrite notifyListeners_spec. Qed.

Lemma register_all (event : string) (callbacks : list Callback) (m : Manager) :
  let m' := fold_left (fun acc callback => on event callback acc) callbacks m in
  subscribers event m' = subscribers event m ++ callbacks /\
  delivered m' = delivered m.
Proof.
  revert m. induction callbacks as [|c cs IH]; intros m; simpl.
  - now rewrite app_nil_r.
  - destruct (IH (on event c m)) as [Hsub Hdel]. simpl in Hsub, Hdel.
    rewrite Hsub, Hdel, subscribers_on, delivered_on, <- app_assoc. auto.
Qed.

(** C7.  One [notifyListeners] on a channel appends to the trace one call
    per entry of the channel's array, in the order of the array, each with
    the published data, and changes nothing else.  [on] puts a callback
    last without looking for it in the array, so after registering
    [callbacks] in turn the calls of one publish are those of the earlier
    subscribers followed by [callbacks] in order; a callback is called as
    many times as it has been registered, and the number of calls is the
    number of registrations. *)
Theorem publish_calls_each_subscriber_once_in_order
  (event : string) (data : Payload) (callbacks : list Callback) (m : Manager) :
  let m' := fold_left (fun acc callback => on event callback acc) callbacks m in
  let batch := map (fun callback => (callback, data)) (subscribers event m ++ callbacks) in
  notifyListeners event data m' = with_delivered (delivered m ++ batch) m' /\
  List.length batch = List.length (subscribers event m ++ callbacks) /\
  (forall callback : Callback,
      count_occ Nat.eq_dec (map fst batch) callback =
      count_occ Nat.eq_dec (subscribers event m ++ callbacks) callback) /\
  (forall callback : Callback,
      subscribers event (on event callback (on event callback m)) =
      subscribers event m ++ [callback; callback]).
Proof.
  intros m' batch. subst m' batch.
  destruct (register_all event callbacks m) as [Hsub Hdel]. simpl in Hsub, Hdel.
  split; [|split; [|split]].
  - now rewrite notifyListeners_spec, Hsub, Hdel.
  - apply length_map.
  - intros callback. rewrite map_map. simpl. now rewrite map_id.
  - intros callback. now rewrite !subscribers_on, <- app_assoc.
Qed.

(* ================================================================= *)
(** ** The conflict-resolution clock *)

Lemma updateRoomStatus_found
  (clk : Clock) (roomId : string) (status : Status) (m : Manager) (room : Room.t) :
  getRoom roomId m = Some room ->
  let updatedRoom :=
    Room.mk (Room.id room) (Room.name room) (Room.host room) (Room.players room)
            (Room.game room) status (Room.maxPlayers room) (Room.createdAt room)
            (Instant (newDate clk)) in
  updateRoomStatus clk roomId status m =
    (Some updatedRoom,
     saveToStorage clk (with_rooms (JsMap.set roomId updatedRoom (rooms m)) m)).
Proof. unfold getRoom, updateRoomStatus. now intros ->. Qed.

Lemma Date_gt_Instant (t : Z) (before : Timestamp) :
  Date_gt (Instant t) before = true <->
  exists t0 : Z, before = Instant t0 /\ (t0 < t)%Z.
Proof.
  destruct before as [t0|]; simpl.
  - rewrite Z.ltb_lt. split.
    + intros H. now exists t0.
    + intros [t1 [Heq Hlt]]. now inversion Heq; subst.
  - split; [discriminate|]. intros [t1 [Heq _]]. discriminate.
Qed.

(** C9, as the code has it.  Each mutation of a room sets [lastUpdated] to
    the reading of the wall clock at that moment, whatever the value was
    before.  The new value is later than the old one exactly when the old
    one is a valid date that lies before that reading. *)
Theorem mutation_stamps_clock_reading
  (clk : Clock) (roomId : string) (m : Manager) (room : Room.t) :
  getRoom roomId m = Some room ->
  (forall p : string,
      ~ In p (Room.players room) ->
      (Z.of_nat (List.length (Room.players room)) < Room.maxPlayers room)%Z ->
      exists room' : Room.t,
        fst (joinRoom clk roomId p m) = Some room' /\
        Room.lastUpdated room' = Instant (newDate clk)) /\
  (forall p : string,
      filter (fun q => negb (String.eqb q p)) (Room.players room) <> [] ->
      exists room' : Room.t,
        fst (leaveRoom clk roomId p m) = Some room' /\
        Room.lastUpdated room' = Instant (newDate clk)) /\
  (forall status : Status,
      exists room' : Room.t,
        fst (updateRoomStatus clk roomId status m) = Some room' /\
        Room.lastUpdated room' = Instant (newDate clk)) /\
  (Date_gt (Instant (newDate clk)) (Room.lastUpdated room) = true <->
   exists t0 : Z, Room.lastUpdated room = Instant t0 /\ (t0 < newDate clk)%Z).
Proof.
  intros Hget. split; [|split; [|split]].
  - intros p Hnotin Hroom.
    rewrite (@joinRoom_appends clk roomId p m room Hget Hnotin Hroom).
    eexists. split; reflexivity.
  - intros p Hrest.
    destruct (filter (fun q => negb (String.eqb q p)) (Room.players room))
      as [|first rest] eqn:Hfilter; [congruence|].
    rewrite (@leaveRoom_remaining clk roomId p m room first rest Hget Hfilter).
    eexists. split; reflexivity.
  - intros status.
    rewrite (@updateRoomStatus_found clk roomId status m room Hget).
    eexists. split; reflexivity.
  - apply Date_gt_Instant.
Qed.

Lemma mutation_stamps_clock_reading_witness :
  getRoom "AB12CD" Scenario.afterCreate = Some Scenario.friends /\
  (exists room' : Room.t,
      fst (updateRoomStatus Scenario.later "AB12CD" playing Scenario.afterCreate)
        = Some room' /\
      Room.lastUpdated room' = Instant 2500) /\
  Date_gt (Instant 2500) (Room.lastUpdated Scenario.friends) = true.
Proof.
  pose proof (@mutation_stamps_clock_reading Scenario.later "AB12CD"
                Scenario.afterCreate Scenario.friends eq_refl) as [_ [_ [Hs Hgt]]].
  split; [reflexivity|]. split.
  - exact (Hs playing).
  - apply Hgt. exists 1000%Z. split; [reflexivity|simpl; lia].
Defined.

(** C9 as worded fails: a status change made while the clock still shows
    the millisecond in which the room was created leaves [lastUpdated]
    where it was, and one made after the clock was set back moves it
    backwards. *)
Lemma mutation_within_same_millisecond_does_not_advance :
  exists room room' room'' : Room.t,
    getRoom "AB12CD" Scenario.afterCreate = Some room /\
    fst (updateRoomStatus Scenario.noon "AB12CD" playing Scenario.afterCreate)
      = Some room' /\
    Room.status room' <> Room.status room /\
    Room.lastUpdated room' = Room.lastUpdated room /\
    Date_gt (Room.lastUpdated room') (Room.lastUpdated room) = false /\
    fst (joinRoom (mkClock 400 400) "AB12CD" "bob" Scenario.afterCreate)
      = Some room'' /\
    Room.players room'' = ["alice"; "bob"] /\
    Date_gt (Room.lastUpdated room'') (Room.lastUpdated room) = false.
Proof.
  do 3 eexists. split; [reflexivity|]. split; [reflexivity|].
  simpl. split; [discriminate|]. repeat split.
Qed.

(* ================================================================= *)
(** ** The room invariant *)

Lemma repository_invariant_set
  (clk : Clock) (key : string) (room : Room.t) (m : Manager) :
  repository_invariant m ->
  room_invariant room -> Room.players room <> [] ->
  repository_invariant (saveToStorage clk (with_rooms (JsMap.set key room (rooms m)) m)).
Proof.
  intros Hinv Hroom Hne key' room'. simpl.
  rewrite JsMapFacts.get_set.
  destruct (String.eqb key key').
  - intros [= <-]. auto.
  - apply Hinv.
Qed.

Lemma length_filter_le {A : Type} (f : A -> bool) (l : list A) :
  (List.length (filter f l) <= List.length l)%nat.
Proof.
  induction l as [|a l IH]; simpl; auto.
  destruct (f a); simpl; lia.
Qed.

Lemma createRoom_preserves (clk : Clock) (roomData : RoomData.t) (m : Manager) :
  repository_invariant m ->
  roomData_invariant roomData ->
  repository_invariant (snd (createRoom clk roomData m)).
Proof.
  intros Hinv [Hcap Hhost]. unfold createRoom. simpl snd.
  apply repository_invariant_set; auto.
  - split; simpl; auto.
  - simpl. intros Hnil. rewrite Hnil in Hhost. contradiction.
Qed.

Lemma joinRoom_preserves (clk : Clock) (roomId p : string) (m : Manager) :
  repository_invariant m ->
  repository_invariant (snd (joinRoom clk roomId p m)).
Proof.
  intros Hinv. unfold joinRoom.
  destruct (JsMap.get roomId (rooms m)) as [room|] eqn:Hget; auto.
  destruct (includes p (Room.players room)); auto.
  destruct (Room.maxPlayers room <=? _)%Z eqn:Hfull; auto.
  simpl snd. destruct (Hinv _ _ Hget) as [[Hcap Hhost] Hne].
  apply Z.leb_gt in Hfull.
  apply repository_invariant_set; auto.
  - split; simpl.
    + rewrite length_app. simpl. lia.
    + intros _. apply in_or_app. left. auto.
  - simpl. intros Hnil. apply app_eq_nil in Hnil. tauto.
Qed.

Lemma leaveRoom_preserves (clk : Clock) (roomId p : string) (m : Manager) :
  repository_invariant m ->
  repository_invariant (snd (leaveRoom clk roomId p m)).
Proof.
  intros Hinv. unfold leaveRoom.
  destruct (JsMap.get roomId (rooms m)) as [room|] eqn:Hget; auto.
  destruct (filter (fun q => negb (String.eqb q p)) (Room.players room))
    as [|first rest] eqn:Hfilter.
  - intros key room'.
    cbn [snd rooms saveToStorage with_localStorage with_gameStates with_rooms].
    destruct (String.eqb roomId key) eqn:E.
    + apply String.eqb_eq in E. subst key.
      now rewrite JsMapFacts.get_delete_same.
    + apply String.eqb_neq in E.
      rewrite (JsMapFacts.get_delete_other _ E). apply Hinv.
  - simpl snd. destruct (Hinv _ _ Hget) as [[Hcap Hhost] Hne].
    apply repository_invariant_set; auto; [|simpl; discriminate].
    split; cbn [Room.players Room.host Room.maxPlayers].
    + pose proof (length_filter_le (fun q => negb (String.eqb q p)) (Room.players room))
        as Hlen.
      rewrite Hfilter in Hlen. lia.
    + intros _. destruct (String.eqb (Room.host room) p) eqn:E; [now left|].
      apply String.eqb_neq in E.
      rewrite <- Hfilter. apply filter_out_In. auto.
Qed.

Lemma updateRoomStatus_preserves
  (clk : Clock) (roomId : string) (status : Status) (m : Manager) :
  repository_invariant m ->
  repository_invariant (snd (updateRoomStatus clk roomId status m)).
Proof.
  intros Hinv. unfold updateRoomStatus.
  destruct (JsMap.get roomId (rooms m)) as [room|] eqn:Hget; auto.
  simpl snd. destruct (Hinv _ _ Hget) as [[Hcap Hhost] Hne].
  apply repository_invariant_set; auto. split; auto.
Qed.

Lemma screen_roomData_invariant
  (generatedId trimmedName username selectedGame : string) (seats created : Z) :
  (1 <= seats)%Z ->
  roomData_invariant
    (RoomSystem.roomData generatedId trimmedName username selectedGame seats created).
Proof. intros Hseats. split; simpl; auto. Qed.

(** C8, as the code has it.  From a repository in which every room is
    within its capacity, has a player and has its host among its players,
    [joinRoom], [leaveRoom] and [updateRoomStatus] lead to such a
    repository again, whatever their arguments.  [createRoom] does so when
    the specification it is given is itself within its capacity and names a
    host among its players, as the one the room screen assembles for at
    least one seat. *)
Theorem lifecycle_preserves_invariant (m : Manager) :
  repository_invariant m ->
  (forall (clk : Clock) (roomData : RoomData.t),
      roomData_invariant roomData ->
      repository_invariant (snd (createRoom clk roomData m))) /\
  (forall (clk : Clock) (generatedId trimmedName username selectedGame : string)
          (seats created : Z),
      (1 <= seats)%Z ->
      repository_invariant
        (snd (createRoom clk
                (RoomSystem.roomData generatedId trimmedName username selectedGame
                                     seats created) m))) /\
  (forall (clk : Clock) (roomId p : string),
      repository_invariant (snd (joinRoom clk roomId p m))) /\
  (forall (clk : Clock) (roomId p : string),
      repository_invariant (snd (leaveRoom clk roomId p m))) /\
  (forall (clk : Clock) (roomId : string) (status : Status),
      repository_invariant (snd (updateRoomStatus clk roomId status m))).
Proof.
  intros Hinv. split; [|split; [|split; [|split]]].
  - intros clk roomData Hdata. now apply createRoom_preserves.
  - intros clk gid nm user gm seats created Hseats.
    apply createRoom_preserves; auto. now apply screen_roomData_invariant.
  - intros clk roomId p. now apply joinRoom_preserves.
  - intros clk roomId p. now apply leaveRoom_preserves.
  - intros clk roomId status. now apply updateRoomStatus_preserves.
Qed.

Lemma start_repository_invariant : repository_invariant Scenario.start.
Proof. intros key room H. discriminate H. Qed.

Lemma lifecycle_preserves_invariant_witness :
  repository_invariant Scenario.start /\
  roomData_invariant Scenario.friendsData /\
  repository_invariant Scenario.afterCreate.
Proof.
  split; [exact start_repository_invariant|].
  assert (Hdata : roomData_invariant Scenario.friendsData).
  { split; simpl; [lia|auto]. }
  split; [exact Hdata|].
  exact (proj1 (lifecycle_preserves_invariant start_repository_invariant)
               Scenario.noon Scenario.friendsData Hdata).
Defined.

(** C8 as worded fails for [createRoom]: it stores whatever it is given,
    also a room without players, or one with more players than seats whose
    host is not among them. *)
Lemma createRoom_stores_room_outside_invariant :
  let noPlayers :=
    RoomData.mk "EE00EE" "Empty" "alice" [] "Spy" waiting 4 (Instant 900) in
  let crowded :=
    RoomData.mk "CC00CC" "Crowd" "zed" ["alice"; "bob"; "carol"] "Spy" waiting 2
                (Instant 900) in
  repository_invariant Scenario.start /\
  ~ repository_invariant (snd (createRoom Scenario.noon noPlayers Scenario.start)) /\
  ~ repository_invariant (snd (createRoom Scenario.noon crowded Scenario.start)).
Proof.
  split; [exact start_repository_invariant|]. split.
  - intros Hinv.
    destruct (Hinv "EE00EE" (fst (createRoom Scenario.noon
      (RoomData.mk "EE00EE" "Empty" "alice" [] "Spy" waiting 4 (Instant 900))
      Scenario.start)) eq_refl) as [_ Hne].
    now apply Hne.
  - intros Hinv.
    destruct (Hinv "CC00CC" (fst (createRoom Scenario.noon
      (RoomData.mk "CC00CC" "Crowd" "zed" ["alice"; "bob"; "carol"] "Spy" waiting 2
                   (Instant 900))
      Scenario.start)) eq_refl) as [[Hcap _] _].
    simpl in Hcap. lia.
Qed.

(* ================================================================= *)
(** ** The reconciliation tick *)

Lemma rooms_syncRoom (m : Manager) (room : Room.t) :
  rooms (syncRoom m room) =
  match JsMap.get (Room.id room) (rooms m) with
  | Some existing =>
      if Date_gt (Room.lastUpdated room) (Room.lastUpdated existing)
      then JsMap.set (Room.id room) room (rooms m) else rooms m
  | None => JsMap.set (Room.id room) room (rooms m)
  end.
Proof.
  unfold syncRoom.
  destruct (JsMap.get (Room.id room) (rooms m)) as [existing|].
  - destruct (Date_gt _ _); auto. now rewrite rooms_notifyListeners.
  - now rewrite rooms_notifyListeners.
Qed.

Lemma syncRoom_get_same (m : Manager) (room : Room.t) :
  JsMap.get (Room.id room) (rooms (syncRoom m room)) =
  Some (merged Room.lastUpdated (JsMap.get (Room.id room) (rooms m)) room).
Proof.
  rewrite rooms_syncRoom. unfold merged.
  destruct (JsMap.get (Room.id room) (rooms m)) as [existing|] eqn:Hget.
  - destruct (Date_gt _ _); auto. apply JsMapFacts.get_set_same.
  - apply JsMapFacts.get_set_same.
Qed.

Lemma syncRoom_get_other (m : Manager) (room : Room.t) (key : string) :
  Room.id room <> key ->
  JsMap.get key (rooms (syncRoom m room)) = JsMap.get key (rooms m).
Proof.
  intros Hne. rewrite rooms_syncRoom.
  destruct (JsMap.get (Room.id room) (rooms m)) as [existing|].
  - destruct (Date_gt _ _); auto. now apply JsMapFacts.get_set_other.
  - now apply JsMapFacts.get_set_other.
Qed.

Lemma fold_syncRoom_get_other (l : list Room.t) (m : Manager) (key : string) :
  ~ In key (map Room.id l) ->
  JsMap.get key (rooms (fold_left syncRoom l m)) = JsMap.get key (rooms m).
Proof.
  revert m. induction l as [|room l IH]; intros m Hnotin; simpl; auto.
  rewrite IH.
  - apply syncRoom_get_other. intros Heq. apply Hnotin. now left.
  - intros Hin. apply Hnotin. now right.
Qed.

Lemma fold_syncRoom_get (l : list Room.t) (m : Manager) (remote : Room.t) :
  NoDup (map Room.id l) ->
  In remote l ->
  JsMap.get (Room.id remote) (rooms (fold_left syncRoom l m)) =
  Some (merged Room.lastUpdated (JsMap.get (Room.id remote) (rooms m)) remote).
Proof.
  revert m. induction l as [|room l IH]; intros m Hnd Hin; [contradiction|].
  simpl in Hnd. inversion Hnd as [|? ? Hfresh Hnd']; subst.
  simpl. destruct Hin as [->|Hin].
  - rewrite fold_syncRoom_get_other by assumption. apply syncRoom_get_same.
  - rewrite IH by assumption. f_equal. f_equal.
    apply syncRoom_get_other. intros Heq. apply Hfresh.
    rewrite Heq. now apply in_map.
Qed.

Lemma gameStates_fold_syncRoom (l : list Room.t) (m : Manager) :
  gameStates (fold_left syncRoom l m) = gameStates m /\
  localStorage (fold_left syncRoom l m) = localStorage m.
Proof.
  revert m. induction l as [|room l IH]; intros m; simpl; auto.
  destruct (IH (syncRoom m room)) as [-> ->]. unfold syncRoom.
  destruct (match JsMap.get (Room.id room) (rooms m) with
            | Some existing => Date_gt (Room.lastUpdated room) (Room.lastUpdated existing)
            | None => true
            end); auto.
  now rewrite gameStates_notifyListeners, localStorage_notifyListeners.
Qed.

Lemma gameStates_syncGameState (m : Manager) (state : GameState.t) :
  gameStates (syncGameState m state) =
  match JsMap.get (GameState.roomId state) (gameStates m) with
  | Some existing =>
      if Date_gt (GameState.lastUpdated state) (GameState.lastUpdated existing)
      then JsMap.set (GameState.roomId state) state (gameStates m) else gameStates m
  | None => JsMap.set (GameState.roomId state) state (gameStates m)
  end.
Proof.
  unfold syncGameState.
  destruct (JsMap.get (GameState.roomId state) (gameStates m)) as [existing|].
  - destruct (Date_gt _ _); auto. now rewrite gameStates_notifyListeners.
  - now rewrite gameStates_notifyListeners.
Qed.

Lemma syncGameState_get_same (m : Manager) (state : GameState.t) :
  JsMap.get (GameState.roomId state) (gameStates (syncGameState m state)) =
  Some (merged GameState.lastUpdated
               (JsMap.get (GameState.roomId state) (gameStates m)) state).
Proof.
  rewrite gameStates_syncGameState. unfold merged.
  destruct (JsMap.get (GameState.roomId state) (gameStates m)) as [existing|] eqn:Hget.
  - destruct (Date_gt _ _); auto. apply JsMapFacts.get_set_same.
  - apply JsMapFacts.get_set_same.
Qed.

Lemma syncGameState_get_other (m : Manager) (state : GameState.t) (key : string) :
  GameState.roomId state <> key ->
  JsMap.get key (gameStates (syncGameState m state)) = JsMap.get key (gameStates m).
Proof.
  intros Hne. rewrite gameStates_syncGameState.
  destruct (JsMap.get (GameState.roomId state) (gameStates m)) as [existing|].
  - destruct (Date_gt _ _); auto. now apply JsMapFacts.get_set_other.
  - now apply JsMapFacts.get_set_other.
Qed.

Lemma fold_syncGameState_get_other
  (l : list GameState.t) (m : Manager) (key : string) :
  ~ In key (map GameState.roomId l) ->
  JsMap.get key (gameStates (fold_left syncGameState l m)) =
  JsMap.get key (gameStates m).
Proof.
  revert m. induction l as [|state l IH]; intros m Hnotin; simpl; auto.
  rewrite IH.
  - apply syncGameState_get_other. intros Heq. apply Hnotin. now left.
  - intros Hin. apply Hnotin. now right.
Qed.

Lemma fold_syncGameState_get
  (l : list GameState.t) (m : Manager) (remote : GameState.t) :
  NoDup (map GameState.roomId l) ->
  In remote l ->
  JsMap.get (GameState.roomId remote) (gameStates (fold_left syncGameState l m)) =
  Some (merged GameState.lastUpdated
               (JsMap.get (GameState.roomId remote) (gameStates m)) remote).
Proof.
  revert m. induction l as [|state l IH]; intros m Hnd Hin; [contradiction|].
  simpl in Hnd. inversion Hnd as [|? ? Hfresh Hnd']; subst.
  simpl. destruct Hin as [->|Hin].
  - rewrite fold_syncGameState_get_other by assumption.
    apply syncGameState_get_same.
  - rewrite IH by assumption. f_equal. f_equal.
    apply syncGameState_get_other. intros Heq. apply Hfresh.
    rewrite Heq. now apply in_map.
Qed.

Lemma rooms_fold_syncGameState (l : list GameState.t) (m : Manager) :
  rooms (fold_left syncGameState l m) = rooms m.
Proof.
  revert m. induction l as [|state l IH]; intros m; simpl; auto.
  rewrite IH. unfold syncGameState.
  destruct (match JsMap.get (GameState.roomId state) (gameStates m) with
            | Some existing =>
                Date_gt (GameState.lastUpdated state) (GameState.lastUpdated existing)
            | None => true
            end); auto.
  now rewrite rooms_notifyListeners.
Qed.

Lemma merged_last_write_wins {A : Type} (stamp : A -> Timestamp)
  (before : option A) (remote : A) :
  last_write_wins stamp before (Some (merged stamp before remote)) remote.
Proof.
  unfold last_write_wins, merged. destruct before as [local|]; auto.
  destruct (Date_gt (stamp remote) (stamp local)).
  - repeat split; auto; discriminate.
  - repeat split; auto; try discriminate.
    intros [= Heq]. congruence.
Qed.

(** Two valid dates compare as their epoch values do; the tie and an
    unparsable date fall on the side of the local entity. *)
Lemma Date_gt_strict (t1 t2 : Z) :
  (Date_gt (Instant t2) (Instant t1) = true <-> (t2 > t1)%Z) /\
  Date_gt (Instant t1) (Instant t1) = false /\
  Date_gt InvalidDate (Instant t1) = false /\
  Date_gt (Instant t2) InvalidDate = false.
Proof.
  simpl. rewrite Z.ltb_lt, Z.ltb_irrefl. repeat split; lia.
Qed.

(** C2, as the code has it.  Let the tick find a shared record that lists
    each room id, and each game-state room id, once, as every record
    written by [saveToStorage] does.  For a remote entity of that record
    with date [T2]: if there is no local entity with its id, the remote one
    is installed; if there is one, with date [T1], the local entity after
    the tick is the remote one when [T2 > T1] and is the local one as it
    was when not, which covers the tie and dates that do not parse.  So,
    when the two entities differ, the local entity after the tick equals
    the remote one if and only if [T2 > T1]. *)
Theorem reconciler_merge_law (m : Manager) (data : SharedData.t) :
  addaMultiplayerSync (localStorage m) = Some data ->
  (NoDup (map Room.id (SharedData.rooms data)) ->
   forall remote : Room.t,
     In remote (SharedData.rooms data) ->
     last_write_wins Room.lastUpdated
       (getRoom (Room.id remote) m)
       (getRoom (Room.id remote) (syncWithOtherDevices m))
       remote) /\
  (NoDup (map GameState.roomId (SharedData.gameStates data)) ->
   forall remote : GameState.t,
     In remote (SharedData.gameStates data) ->
     last_write_wins GameState.lastUpdated
       (getGameState (GameState.roomId remote) m)
       (getGameState (GameState.roomId remote) (syncWithOtherDevices m))
       remote).
Proof.
  intros Hdata. unfold getRoom, getGameState, syncWithOtherDevices.
  rewrite Hdata. split; intros Hnd remote Hin.
  - rewrite rooms_notifyListeners, rooms_fold_syncGameState.
    rewrite (@fold_syncRoom_get _ m remote Hnd Hin).
    apply merged_last_write_wins.
  - rewrite gameStates_notifyListeners.
    rewrite (@fold_syncGameState_get _ _ remote Hnd Hin).
    rewrite (proj1 (gameStates_fold_syncRoom (SharedData.rooms data) m)).
    apply merged_last_write_wins.
Qed.

(* ================================================================= *)
(** ** Shared records written by the manager list each id once *)

Section KeyedBy.
Context {V : Type} (key : V -> string).

Lemma keyed_by_empty : keyed_by key JsMap.empty.
Proof. split; constructor. Qed.

Lemma keyed_by_set (v : V) (m : JsMap.t V) :
  keyed_by key m -> keyed_by key (JsMap.set (key v) v m).
Proof.
  intros [Hnd Hall]. split; [now apply JsMapFacts.set_keys_NoDup|].
  clear Hnd. induction m as [|[k0 v0] m IH]; simpl.
  - repeat constructor.
  - inversion Hall; subst.
    destruct (String.eqb (key v) k0); constructor; auto.
Qed.

Lemma keyed_by_delete (k : string) (m : JsMap.t V) :
  keyed_by key m -> keyed_by key (JsMap.delete k m).
Proof.
  intros [Hnd Hall]. split; [now apply JsMapFacts.delete_keys_NoDup|].
  unfold JsMap.delete. rewrite Forall_forall in *.
  intros e He. apply filter_In in He. apply Hall. tauto.
Qed.

Lemma keyed_by_get (k : string) (v : V) (m : JsMap.t V) :
  keyed_by key m -> JsMap.get k m = Some v -> k = key v.
Proof.
  intros [_ Hall]. induction m as [|[k0 v0] m IH]; simpl; [discriminate|].
  inversion Hall as [|? ? Hhead Htail]; subst. simpl in Hhead.
  destruct (String.eqb k k0) eqn:E.
  - apply String.eqb_eq in E. intros [= <-]. congruence.
  - auto.
Qed.

Lemma keyed_by_values (m : JsMap.t V) :
  keyed_by key m -> NoDup (map key (JsMap.values m)).
Proof.
  intros [Hnd Hall]. unfold JsMap.keys, JsMap.values in *.
  rewrite map_map.
  replace (map (fun e => key (snd e)) m) with (map fst m); auto.
  clear Hnd. induction Hall as [|e m He Hall IH]; simpl; congruence.
Qed.

End KeyedBy.

Lemma well_keyed_fresh (s : LocalStorage) : well_keyed (fresh s).
Proof. split; apply keyed_by_empty. Qed.

Lemma well_keyed_loadFromStorage (m : Manager) :
  well_keyed m -> well_keyed (loadFromStorage m).
Proof.
  assert (Hrooms : forall l acc, well_keyed acc ->
            well_keyed (fold_left (fun acc room =>
              with_rooms (JsMap.set (Room.id room) room (rooms acc)) acc) l acc)).
  { induction l as [|room l IH]; intros acc Hacc; simpl; auto.
    apply IH. destruct Hacc as [Hr Hg]. split; simpl; auto.
    now apply keyed_by_set. }
  assert (Hstates : forall l acc, well_keyed acc ->
            well_keyed (fold_left (fun acc state =>
              with_gameStates (JsMap.set (GameState.roomId state) state (gameStates acc)) acc)
              l acc)).
  { induction l as [|state l IH]; intros acc Hacc; simpl; auto.
    apply IH. destruct Hacc as [Hr Hg]. split; simpl; auto.
    now apply keyed_by_set. }
  intros Hm. unfold loadFromStorage.
  set (m1 := match addaGameRooms (localStorage m) with
             | Some roomsArray => _ | None => m end).
  assert (Hm1 : well_keyed m1).
  { subst m1. destruct (addaGameRooms (localStorage m)); auto. }
  destruct (addaGameStates (localStorage m1)); auto.
Qed.

Lemma well_keyed_syncWithOtherDevices (m : Manager) :
  well_keyed m -> well_keyed (syncWithOtherDevices m).
Proof.
  assert (Hrooms : forall l acc, well_keyed acc -> well_keyed (fold_left syncRoom l acc)).
  { induction l as [|room l IH]; intros acc Hacc; simpl; auto.
    apply IH. destruct Hacc as [Hr Hg]. unfold well_keyed.
    rewrite rooms_syncRoom.
    pose proof (gameStates_fold_syncRoom [room] acc) as [Hgs _].
    simpl in Hgs. rewrite Hgs. split; auto.
    destruct (JsMap.get (Room.id room) (rooms acc)) as [existing|].
    - destruct (Date_gt _ _); auto. now apply keyed_by_set.
    - now apply keyed_by_set. }
  assert (Hstates : forall l acc, well_keyed acc ->
                                  well_keyed (fold_left syncGameState l acc)).
  { induction l as [|state l IH]; intros acc Hacc; simpl; auto.
    apply IH. destruct Hacc as [Hr Hg]. unfold well_keyed.
    rewrite gameStates_syncGameState.
    pose proof (rooms_fold_syncGameState [state] acc) as Hrs.
    simpl in Hrs. rewrite Hrs. split; auto.
    destruct (JsMap.get (GameState.roomId state) (gameStates acc)) as [existing|].
    - destruct (Date_gt _ _); auto. now apply keyed_by_set.
    - now apply keyed_by_set. }
  intros Hm. unfold syncWithOtherDevices.
  destruct (addaMultiplayerSync (localStorage m)) as [data|]; auto.
  unfold well_keyed. rewrite rooms_notifyListeners, gameStates_notifyListeners.
  apply Hstates, Hrooms, Hm.
Qed.

Lemma well_keyed_operations (clk : Clock) (m : Manager) :
  well_keyed m ->
  (forall roomData, well_keyed (snd (createRoom clk roomData m))) /\
  (forall roomId p, well_keyed (snd (joinRoom clk roomId p m))) /\
  (forall roomId p, well_keyed (snd (leaveRoom clk roomId p m))) /\
  (forall roomId status, well_keyed (snd (updateRoomStatus clk roomId status m))) /\
  (forall roomId gameData, well_keyed (updateGameState clk roomId gameData m)).
Proof.
  intros [Hr Hg]. split; [|split; [|split; [|split]]].
  - intros roomData. split; simpl; auto.
    apply (@keyed_by_set _ Room.id
             (Room.mk (RoomData.id roomData) (RoomData.name roomData)
                      (RoomData.host roomData) (RoomData.players roomData)
                      (RoomData.game roomData) (RoomData.status roomData)
                      (RoomData.maxPlayers roomData) (RoomData.createdAt roomData)
                      (toISOString clk)) _ Hr).
  - intros roomId p. unfold joinRoom.
    destruct (JsMap.get roomId (rooms m)) as [room|] eqn:Hget; [|split; auto].
    destruct (includes p (Room.players room)); [split; auto|].
    destruct (Room.maxPlayers room <=? _)%Z; [split; auto|].
    split; simpl; auto.
    rewrite (@keyed_by_get _ Room.id roomId room (rooms m) Hr Hget).
    apply (@keyed_by_set _ Room.id
             (Room.mk (Room.id room) (Room.name room) (Room.host room)
                      (Room.players room ++ [p]) (Room.game room) (Room.status room)
                      (Room.maxPlayers room) (Room.createdAt room)
                      (toISOString clk)) _ Hr).
  - intros roomId p. unfold leaveRoom.
    destruct (JsMap.get roomId (rooms m)) as [room|] eqn:Hget; [|split; auto].
    destruct (filter (fun q => negb (String.eqb q p)) (Room.players room))
      as [|first rest].
    + split; cbn [snd rooms gameStates saveToStorage with_localStorage
                  with_gameStates with_rooms]; now apply keyed_by_delete.
    + split; simpl; auto.
      rewrite (@keyed_by_get _ Room.id roomId room (rooms m) Hr Hget).
      apply (@keyed_by_set _ Room.id
               (Room.mk (Room.id room) (Room.name room)
                        (if String.eqb (Room.host room) p then first else Room.host room)
                        (first :: rest) (Room.game room) (Room.status room)
                        (Room.maxPlayers room) (Room.createdAt room)
                        (toISOString clk)) _ Hr).
  - intros roomId status. unfold updateRoomStatus.
    destruct (JsMap.get roomId (rooms m)) as [room|] eqn:Hget; [|split; auto].
    split; simpl; auto.
    rewrite (@keyed_by_get _ Room.id roomId room (rooms m) Hr Hget).
    apply (@keyed_by_set _ Room.id
             (Room.mk (Room.id room) (Room.name room) (Room.host room)
                      (Room.players room) (Room.game room) status
                      (Room.maxPlayers room) (Room.createdAt room)
                      (toISOString clk)) _ Hr).
  - intros roomId gameData. split; simpl; auto.
    apply (@keyed_by_set _ GameState.roomId
             (GameState.mk roomId None (Some gameData) None (toISOString clk)) _ Hg).
Qed.

(** Hence the shared record that [saveToStorage] writes lists each room id
    and each game-state room id once. *)
Lemma saveToStorage_ids_NoDup (clk : Clock) (m : Manager) (data : SharedData.t) :
  well_keyed m ->
  addaMultiplayerSync (localStorage (saveToStorage clk m)) = Some data ->
  NoDup (map Room.id (SharedData.rooms data)) /\
  NoDup (map GameState.roomId (SharedData.gameStates data)).
Proof.
  intros [Hr Hg] [= <-]. simpl. split; now apply keyed_by_values.
Qed.

(* ================================================================= *)
(** ** The merge law on the scenario *)

Lemma reconciler_merge_law_witness :
  exists data : SharedData.t,
    addaMultiplayerSync (localStorage Scenario.otherTab) = Some data /\
    NoDup (map Room.id (SharedData.rooms data)) /\
    In Scenario.friendsWithBob (SharedData.rooms data) /\
    getRoom "AB12CD" Scenario.otherTab = Some Scenario.friends /\
    Date_gt (Room.lastUpdated Scenario.friendsWithBob)
            (Room.lastUpdated Scenario.friends) = true /\
    getRoom "AB12CD" (syncWithOtherDevices Scenario.otherTab)
      = Some Scenario.friendsWithBob.
Proof.
  exists (SharedData.mk [Scenario.friendsWithBob] [] 2500).
  assert (Hnd : NoDup (map Room.id [Scenario.friendsWithBob])).
  { simpl. constructor; [intros []|constructor]. }
  assert (Hin : In Scenario.friendsWithBob [Scenario.friendsWithBob]) by now left.
  split; [reflexivity|]. split; [exact Hnd|]. split; [exact Hin|].
  split; [reflexivity|]. split; [reflexivity|].
  pose proof (proj1 (@reconciler_merge_law Scenario.otherTab
                       (SharedData.mk [Scenario.friendsWithBob] [] 2500) eq_refl)
                    Hnd Scenario.friendsWithBob Hin) as Hlaw.
  destruct Hlaw as [Hnewer _]. apply Hnewer. reflexivity.
Defined.

(** C2 as worded fails in two ways.  A tick that reads back the record the
    manager has just written finds a remote room equal to the local one:
    after the tick the local room equals the remote one although the
    remote date is not later.  And in a record that lists an id twice, the
    second entry is compared with the first entry once that one has been
    installed, not with the room that was local before the tick. *)
Lemma tick_equal_entities_and_repeated_ids :
  (exists (data : SharedData.t) (remote local : Room.t),
      addaMultiplayerSync (localStorage Scenario.afterCreate) = Some data /\
      In remote (SharedData.rooms data) /\
      getRoom (Room.id remote) Scenario.afterCreate = Some local /\
      getRoom (Room.id remote) (syncWithOtherDevices Scenario.afterCreate)
        = Some remote /\
      Date_gt (Room.lastUpdated remote) (Room.lastUpdated local) = false) /\
  (exists (data : SharedData.t) (remote local : Room.t),
      addaMultiplayerSync (localStorage Scenario.repeatedIds) = Some data /\
      In remote (SharedData.rooms data) /\
      getRoom (Room.id remote) Scenario.repeatedIds = Some local /\
      Date_gt (Room.lastUpdated remote) (Room.lastUpdated local) = true /\
      getRoom (Room.id remote) (syncWithOtherDevices Scenario.repeatedIds)
        <> Some remote).
Proof.
  split.
  - exists (SharedData.mk [Scenario.friends] [] 1000), Scenario.friends, Scenario.friends.
    repeat split. now left.
  - exists (SharedData.mk [Scenario.friendsRenamed; Scenario.friendsWithBob] [] 5000),
           Scenario.friendsWithBob, Scenario.friends.
    split; [reflexivity|]. split; [right; now left|].
    split; [reflexivity|]. split; [reflexivity|].
    vm_compute. discriminate.
Qed.


(* ================================================================= *)
(** * Further properties of the manager *)

(* ================================================================= *)
(** ** More facts about [JsMap] *)

Lemma JsMap_get_None_keys {V : Type} (k : string) (m : JsMap.t V) :
  JsMap.get k m = None <-> ~ In k (JsMap.keys m).
Proof.
  unfold JsMap.keys. induction m as [|[k0 v0] m IH]; simpl.
  - tauto.
  - destruct (String.eqb k k0) eqn:E.
    + apply String.eqb_eq in E. subst. split; [discriminate|]. intros H. exfalso. auto.
    + apply String.eqb_neq in E. rewrite IH. split.
      * intros H [Heq|Hin]; auto.
      * intros H Hin. apply H. now right.
Qed.

Lemma JsMap_set_absent {V : Type} (k : string) (v : V) (m : JsMap.t V) :
  JsMap.get k m = None -> JsMap.set k v m = m ++ [(k, v)].
Proof.
  induction m as [|[k0 v0] m IH]; simpl; auto.
  destruct (String.eqb k k0); [discriminate|].
  intros H. now rewrite IH.
Qed.

Lemma JsMap_set_present_keys {V : Type} (k : string) (v v0 : V) (m : JsMap.t V) :
  JsMap.get k m = Some v0 -> JsMap.keys (JsMap.set k v m) = JsMap.keys m.
Proof.
  unfold JsMap.keys. induction m as [|[k1 v1] m IH]; simpl; [discriminate|].
  destruct (String.eqb k k1) eqn:E; simpl.
  - apply String.eqb_eq in E. now subst.
  - intros H. now rewrite IH.
Qed.

Lemma JsMap_get_In {V : Type} (k : string) (v : V) (m : JsMap.t V) :
  NoDup (JsMap.keys m) -> In (k, v) m -> JsMap.get k m = Some v.
Proof.
  unfold JsMap.keys. induction m as [|[k0 v0] m IH]; simpl; [tauto|].
  intros Hnd [Heq|Hin].
  - inversion Heq; subst. now rewrite String.eqb_refl.
  - inversion Hnd as [|? ? Hfresh Hnd']; subst.
    destruct (String.eqb k k0) eqn:E; auto.
    apply String.eqb_eq in E. subst. exfalso. apply Hfresh.
    change k0 with (fst (k0, v)). now apply in_map.
Qed.

Lemma JsMap_set_same_value {V : Type} (k : string) (v : V) (m : JsMap.t V) :
  JsMap.get k m = Some v -> JsMap.set k v m = m.
Proof.
  induction m as [|[k0 v0] m IH]; simpl; [discriminate|].
  destruct (String.eqb k k0) eqn:E.
  - apply String.eqb_eq in E. intros [= ->]. now subst.
  - intros H. now rewrite IH.
Qed.

(* ================================================================= *)
(** ** The comparison of the tick, on a map of entities *)

Lemma Date_gt_irrefl (a : Timestamp) : Date_gt a a = false.
Proof. destruct a; simpl; auto. apply Z.ltb_irrefl. Qed.

Lemma Date_gt_trans (a b c : Timestamp) :
  Date_gt a b = true -> Date_gt b c = true -> Date_gt a c = true.
Proof.
  destruct a, b, c; simpl; try discriminate.
  rewrite !Z.ltb_lt. lia.
Qed.

(** An entity that does not beat [b] does not beat anything later than [b]. *)
Lemma Date_gt_blocked (a b c : Timestamp) :
  Date_gt a b = false -> Date_gt c b = true -> Date_gt a c = false.
Proof.
  destruct a, b, c; simpl; try discriminate; auto.
  rewrite !Z.ltb_lt, !Z.ltb_ge. lia.
Qed.

Section LastWriteWins.
Context {A : Type} (key : A -> string) (stamp : A -> Timestamp).

Lemma lww_step_get_same (entities : JsMap.t A) (remote : A) :
  JsMap.get (key remote) (lww_step key stamp entities remote) =
  Some (merged stamp (JsMap.get (key remote) entities) remote).
Proof.
  unfold lww_step, merged.
  destruct (JsMap.get (key remote) entities) as [existing|] eqn:Hget.
  - destruct (Date_gt _ _); auto. apply JsMapFacts.get_set_same.
  - apply JsMapFacts.get_set_same.
Qed.

Lemma lww_step_get_other (entities : JsMap.t A) (remote : A) (k : string) :
  key remote <> k ->
  JsMap.get k (lww_step key stamp entities remote) = JsMap.get k entities.
Proof.
  intros Hne. unfold lww_step.
  destruct (JsMap.get (key remote) entities) as [existing|].
  - destruct (Date_gt _ _); auto. now apply JsMapFacts.get_set_other.
  - now apply JsMapFacts.get_set_other.
Qed.

(** One comparison keeps an entity or replaces it by a later one. *)
Lemma lww_step_monotone (entities : JsMap.t A) (remote local : A) (k : string) :
  JsMap.get k entities = Some local ->
  exists after : A,
    JsMap.get k (lww_step key stamp entities remote) = Some after /\
    (after = local \/ Date_gt (stamp after) (stamp local) = true).
Proof.
  intros Hget. destruct (String.eqb (key remote) k) eqn:E.
  - apply String.eqb_eq in E. subst k.
    rewrite lww_step_get_same, Hget. unfold merged.
    destruct (Date_gt (stamp remote) (stamp local)) eqn:Hgt; eauto.
  - apply String.eqb_neq in E. rewrite lww_step_get_other by assumption. eauto.
Qed.

Lemma lww_fold_monotone (l : list A) (entities : JsMap.t A) (local : A) (k : string) :
  JsMap.get k entities = Some local ->
  exists after : A,
    JsMap.get k (fold_left (lww_step key stamp) l entities) = Some after /\
    (after = local \/ Date_gt (stamp after) (stamp local) = true).
Proof.
  revert entities local. induction l as [|remote l IH]; intros entities local Hget; simpl.
  - eauto.
  - destruct (@lww_step_monotone entities remote local k Hget) as [mid [Hmid Hcmp]].
    destruct (IH _ _ Hmid) as [after [Hafter Hcmp']].
    exists after. split; auto.
    destruct Hcmp as [->|Hgt]; auto.
    destruct Hcmp' as [->|Hgt']; auto.
    right. eapply Date_gt_trans; eauto.
Qed.

Lemma lww_step_settles (entities : JsMap.t A) (remote : A) :
  settled key stamp (lww_step key stamp entities remote) remote.
Proof.
  unfold settled. rewrite lww_step_get_same. eexists. split; [reflexivity|].
  unfold merged. destruct (JsMap.get (key remote) entities) as [existing|].
  - destruct (Date_gt (stamp remote) (stamp existing)) eqn:Hgt; auto.
    apply Date_gt_irrefl.
  - apply Date_gt_irrefl.
Qed.

Lemma lww_step_keeps_settled (entities : JsMap.t A) (remote other : A) :
  settled key stamp entities other ->
  settled key stamp (lww_step key stamp entities remote) other.
Proof.
  intros [existing [Hget Hcmp]].
  destruct (@lww_step_monotone entities remote existing (key other) Hget) as [after [Hafter Hor]].
  exists after. split; auto.
  destruct Hor as [->|Hgt]; auto.
  eapply Date_gt_blocked; eauto.
Qed.

Lemma lww_fold_keeps_settled (l : list A) (entities : JsMap.t A) (other : A) :
  settled key stamp entities other ->
  settled key stamp (fold_left (lww_step key stamp) l entities) other.
Proof.
  revert entities. induction l as [|remote l IH]; intros entities H; simpl; auto.
  apply IH. now apply lww_step_keeps_settled.
Qed.

Lemma lww_fold_settles (l : list A) (entities : JsMap.t A) :
  Forall (settled key stamp (fold_left (lww_step key stamp) l entities)) l.
Proof.
  revert entities. induction l as [|remote l IH]; intros entities; simpl.
  - constructor.
  - constructor; auto.
    apply lww_fold_keeps_settled, lww_step_settles.
Qed.

Lemma lww_step_settled (entities : JsMap.t A) (remote : A) :
  settled key stamp entities remote -> lww_step key stamp entities remote = entities.
Proof.
  intros [existing [Hget Hcmp]]. unfold lww_step. now rewrite Hget, Hcmp.
Qed.

(** The entities of a map that sits under its own ids are settled in it. *)
Lemma keyed_values_settled (entities : JsMap.t A) :
  keyed_by key entities -> Forall (settled key stamp entities) (JsMap.values entities).
Proof.
  intros [Hnd Hall]. apply Forall_forall. intros v Hin.
  unfold JsMap.values in Hin. apply in_map_iff in Hin.
  destruct Hin as [[k v'] [Heq Hin]]. simpl in Heq. subst v'.
  rewrite Forall_forall in Hall. pose proof (Hall _ Hin) as Hk. simpl in Hk. subst k.
  exists v. split; [now apply JsMap_get_In|apply Date_gt_irrefl].
Qed.

End LastWriteWins.

(** The two loops of the tick are folds of [lww_step]. *)
Lemma rooms_fold_syncRoom (l : list Room.t) (m : Manager) :
  rooms (fold_left syncRoom l m) =
  fold_left (lww_step Room.id Room.lastUpdated) l (rooms m).
Proof.
  revert m. induction l as [|room l IH]; intros m; simpl; auto.
  now rewrite IH, rooms_syncRoom.
Qed.

Lemma gameStates_fold_syncGameState (l : list GameState.t) (m : Manager) :
  gameStates (fold_left syncGameState l m) =
  fold_left (lww_step GameState.roomId GameState.lastUpdated) l (gameStates m).
Proof.
  revert m. induction l as [|state l IH]; intros m; simpl; auto.
  now rewrite IH, gameStates_syncGameState.
Qed.

Lemma syncWithOtherDevices_repository (m : Manager) (data : SharedData.t) :
  addaMultiplayerSync (localStorage m) = Some data ->
  rooms (syncWithOtherDevices m) =
    fold_left (lww_step Room.id Room.lastUpdated) (SharedData.rooms data) (rooms m) /\
  gameStates (syncWithOtherDevices m) =
    fold_left (lww_step GameState.roomId GameState.lastUpdated)
              (SharedData.gameStates data) (gameStates m).
Proof.
  intros Hdata. unfold syncWithOtherDevices. rewrite Hdata.
  rewrite rooms_notifyListeners, gameStates_notifyListeners.
  rewrite rooms_fold_syncGameState, rooms_fold_syncRoom.
  rewrite gameStates_fold_syncGameState.
  now rewrite (proj1 (gameStates_fold_syncRoom (SharedData.rooms data) m)).
Qed.

(* ================================================================= *)
(** ** What a tick leaves alone *)

Lemma syncRoom_frame (m : Manager) (room : Room.t) :
  listeners (syncRoom m room) = listeners m /\
  localStorage (syncRoom m room) = localStorage m /\
  syncInterval (syncRoom m room) = syncInterval m /\
  exists extra, delivered (syncRoom m room) = delivered m ++ extra.
Proof.
  unfold syncRoom.
  destruct (match JsMap.get (Room.id room) (rooms m) with
            | Some existing => Date_gt (Room.lastUpdated room) (Room.lastUpdated existing)
            | None => true
            end).
  - rewrite notifyListeners_spec. simpl. repeat split. eauto.
  - repeat split. exists []. now rewrite app_nil_r.
Qed.

Lemma syncGameState_frame (m : Manager) (state : GameState.t) :
  listeners (syncGameState m state) = listeners m /\
  localStorage (syncGameState m state) = localStorage m /\
  syncInterval (syncGameState m state) = syncInterval m /\
  exists extra, delivered (syncGameState m state) = delivered m ++ extra.
Proof.
  unfold syncGameState.
  destruct (match JsMap.get (GameState.roomId state) (gameStates m) with
            | Some existing =>
                Date_gt (GameState.lastUpdated state) (GameState.lastUpdated existing)
            | None => true
            end).
  - rewrite notifyListeners_spec. simpl. repeat split. eauto.
  - repeat split. exists []. now rewrite app_nil_r.
Qed.

Lemma fold_frame {A : Type} (f : Manager -> A -> Manager) :
  (forall m a,
      listeners (f m a) = listeners m /\ localStorage (f m a) = localStorage m /\
      syncInterval (f m a) = syncInterval m /\
      exists extra, delivered (f m a) = delivered m ++ extra) ->
  forall l m,
    listeners (fold_left f l m) = listeners m /\
    localStorage (fold_left f l m) = localStorage m /\
    syncInterval (fold_left f l m) = syncInterval m /\
    exists extra, delivered (fold_left f l m) = delivered m ++ extra.
Proof.
  intros Hstep. induction l as [|a l IH]; intros m; simpl.
  - repeat split. exists []. now rewrite app_nil_r.
  - destruct (IH (f m a)) as [Hl [Hs [Ht [extra Hd]]]].
    destruct (Hstep m a) as [Hl' [Hs' [Ht' [extra' Hd']]]].
    rewrite Hl, Hs, Ht, Hd, Hl', Hs', Ht', Hd'. repeat split.
    exists (extra' ++ extra). now rewrite app_assoc.
Qed.

Lemma syncRoom_settled (m : Manager) (room : Room.t) :
  settled Room.id Room.lastUpdated (rooms m) room -> syncRoom m room = m.
Proof. intros [existing [Hget Hcmp]]. unfold syncRoom. now rewrite Hget, Hcmp. Qed.

Lemma syncGameState_settled (m : Manager) (state : GameState.t) :
  settled GameState.roomId GameState.lastUpdated (gameStates m) state ->
  syncGameState m state = m.
Proof. intros [existing [Hget Hcmp]]. unfold syncGameState. now rewrite Hget, Hcmp. Qed.

Lemma fold_syncRoom_settled (l : list Room.t) (m : Manager) :
  Forall (settled Room.id Room.lastUpdated (rooms m)) l -> fold_left syncRoom l m = m.
Proof.
  induction 1 as [|room l Hroom Hall IH]; simpl; auto.
  now rewrite syncRoom_settled.
Qed.

Lemma fold_syncGameState_settled (l : list GameState.t) (m : Manager) :
  Forall (settled GameState.roomId GameState.lastUpdated (gameStates m)) l ->
  fold_left syncGameState l m = m.
Proof.
  induction 1 as [|state l Hstate Hall IH]; simpl; auto.
  now rewrite syncGameState_settled.
Qed.

Lemma syncWithOtherDevices_frame (m : Manager) :
  localStorage (syncWithOtherDevices m) = localStorage m /\
  listeners (syncWithOtherDevices m) = listeners m /\
  syncInterval (syncWithOtherDevices m) = syncInterval m /\
  (addaMultiplayerSync (localStorage m) = None -> syncWithOtherDevices m = m) /\
  (addaMultiplayerSync (localStorage m) <> None ->
   exists extra,
     delivered (syncWithOtherDevices m) =
     delivered m ++ extra ++
     map (fun callback => (callback, RoomsPayload (getAllRooms (syncWithOtherDevices m))))
         (subscribers "rooms" m)).
Proof.
  unfold syncWithOtherDevices.
  destruct (addaMultiplayerSync (localStorage m)) as [data|] eqn:Hdata.
  - destruct (fold_frame syncRoom syncRoom_frame (SharedData.rooms data) m)
      as [Hl [Hs [Ht [extra Hd]]]].
    destruct (fold_frame syncGameState syncGameState_frame (SharedData.gameStates data)
                (fold_left syncRoom (SharedData.rooms data) m))
      as [Hl' [Hs' [Ht' [extra' Hd']]]].
    rewrite notifyListeners_spec. simpl.
    rewrite Hl', Hs', Ht', Hl, Hs, Ht. repeat split; [discriminate|].
    intros _. exists (extra ++ extra').
    rewrite Hd', Hd. unfold subscribers, getAllRooms. simpl.
    rewrite Hl', Hl. now rewrite !app_assoc.
  - repeat split. intros H. congruence.
Qed.

(** X1.  A tick reads the storage and calls listeners; it never writes the
    storage, never touches the registry or the timer, and never takes a
    call back from the trace.  Without a shared record in the storage it
    does nothing at all, not even the [rooms] notification; with one, the
    last thing it does is to call the subscribers of [rooms] with the
    complete room list as it then stands. *)
Theorem tick_frame (m : Manager) :
  localStorage (syncWithOtherDevices m) = localStorage m /\
  listeners (syncWithOtherDevices m) = listeners m /\
  syncInterval (syncWithOtherDevices m) = syncInterval m /\
  (addaMultiplayerSync (localStorage m) = None -> syncWithOtherDevices m = m) /\
  (addaMultiplayerSync (localStorage m) <> None ->
   exists extra,
     delivered (syncWithOtherDevices m) =
     delivered m ++ extra ++
     map (fun callback => (callback, RoomsPayload (getAllRooms (syncWithOtherDevices m))))
         (subscribers "rooms" m)).
Proof. exact (syncWithOtherDevices_frame m). Qed.

Lemma tick_frame_witness :
  addaMultiplayerSync (localStorage (on "rooms" 7 Scenario.otherTab)) <> None /\
  exists extra,
    delivered (syncWithOtherDevices (on "rooms" 7 Scenario.otherTab)) =
    delivered (on "rooms" 7 Scenario.otherTab) ++ extra ++
    map (fun callback =>
           (callback,
            RoomsPayload
              (getAllRooms (syncWithOtherDevices (on "rooms" 7 Scenario.otherTab)))))
        (subscribers "rooms" (on "rooms" 7 Scenario.otherTab)).
Proof.
  split; [discriminate|].
  apply (proj2 (proj2 (proj2 (proj2 (tick_frame (on "rooms" 7 Scenario.otherTab)))))).
  discriminate.
Defined.

(** X2.  A tick never removes an entity and never replaces one by an older or
    equally old one: whatever the shared record holds, also with ids
    listed several times, a room or game state that is in the repository
    before the tick is there afterwards, either as it was or replaced by
    one with a later date. *)
Theorem tick_keeps_or_advances (m : Manager) :
  (forall (roomId : string) (local : Room.t),
      getRoom roomId m = Some local ->
      exists after : Room.t,
        getRoom roomId (syncWithOtherDevices m) = Some after /\
        (after = local \/
         Date_gt (Room.lastUpdated after) (Room.lastUpdated local) = true)) /\
  (forall (roomId : string) (local : GameState.t),
      getGameState roomId m = Some local ->
      exists after : GameState.t,
        getGameState roomId (syncWithOtherDevices m) = Some after /\
        (after = local \/
         Date_gt (GameState.lastUpdated after) (GameState.lastUpdated local) = true)).
Proof.
  unfold getRoom, getGameState.
  destruct (addaMultiplayerSync (localStorage m)) as [data|] eqn:Hdata.
  - destruct (syncWithOtherDevices_repository m Hdata) as [-> ->].
    split; intros roomId local Hget; now apply lww_fold_monotone.
  - rewrite (proj1 (proj2 (proj2 (proj2 (syncWithOtherDevices_frame m)))) Hdata).
    split; intros roomId local Hget; eauto.
Qed.

Lemma tick_keeps_or_advances_witness :
  getRoom "AB12CD" Scenario.repeatedIds = Some Scenario.friends /\
  exists after : Room.t,
    getRoom "AB12CD" (syncWithOtherDevices Scenario.repeatedIds) = Some after /\
    (after = Scenario.friends \/
     Date_gt (Room.lastUpdated after) (Room.lastUpdated Scenario.friends) = true).
Proof.
  split; [reflexivity|].
  apply (proj1 (tick_keeps_or_advances Scenario.repeatedIds)). reflexivity.
Defined.

(** X3.  A second tick on the same storage changes nothing in the repository:
    all it does is to call the subscribers of [rooms] once more. *)
Theorem second_tick_only_republishes (m : Manager) :
  syncWithOtherDevices (syncWithOtherDevices m) =
  match addaMultiplayerSync (localStorage m) with
  | Some _ =>
      notifyListeners "rooms"
        (RoomsPayload (getAllRooms (syncWithOtherDevices m)))
        (syncWithOtherDevices m)
  | None => m
  end.
Proof.
  destruct (addaMultiplayerSync (localStorage m)) as [data|] eqn:Hdata.
  - destruct (syncWithOtherDevices_repository m Hdata) as [Hrooms Hstates].
    set (m' := syncWithOtherDevices m) in *.
    assert (Hdata' : addaMultiplayerSync (localStorage m') = Some data).
    { subst m'. now rewrite (proj1 (syncWithOtherDevices_frame m)). }
    unfold syncWithOtherDevices at 1. rewrite Hdata'.
    rewrite fold_syncRoom_settled.
    + rewrite fold_syncGameState_settled; auto.
      rewrite Hstates. apply lww_fold_settles.
    + rewrite Hrooms. apply lww_fold_settles.
  - pose proof (proj1 (proj2 (proj2 (proj2 (syncWithOtherDevices_frame m)))) Hdata) as Hnoop.
    now rewrite !Hnoop.
Qed.

(** X4.  A tick that reads back what the manager itself has just written finds
    nothing newer: the repository stays as it is and the only calls are
    those to the subscribers of [rooms]. *)
Theorem tick_after_own_write (clk : Clock) (m : Manager) :
  well_keyed m ->
  syncWithOtherDevices (saveToStorage clk m) =
  notifyListeners "rooms" (RoomsPayload (getAllRooms m)) (saveToStorage clk m).
Proof.
  intros [Hr Hg]. unfold syncWithOtherDevices. simpl addaMultiplayerSync. cbv iota.
  cbn [SharedData.rooms SharedData.gameStates].
  rewrite fold_syncRoom_settled.
  - rewrite fold_syncGameState_settled; auto.
    now apply keyed_values_settled.
  - now apply keyed_values_settled.
Qed.

Lemma tick_after_own_write_witness :
  well_keyed Scenario.afterJoin /\
  syncWithOtherDevices (saveToStorage Scenario.later Scenario.afterJoin) =
  notifyListeners "rooms" (RoomsPayload [Scenario.friendsWithBob])
                  (saveToStorage Scenario.later Scenario.afterJoin).
Proof.
  assert (Hkeyed : well_keyed Scenario.afterJoin).
  { split; split; simpl; repeat constructor. intros []. }
  split; [exact Hkeyed|].
  exact (tick_after_own_write Scenario.later Hkeyed).
Defined.

(* ================================================================= *)
(** ** Subscribing and unsubscribing *)

Lemma subscribers_off (event : string) (callback : Callback) (m : Manager) :
  subscribers event (off event callback m) =
  remove_first callback (subscribers event m).
Proof.
  unfold subscribers, off.
  destruct (JsMap.get event (listeners m)) as [l|] eqn:Hget; simpl.
  - now rewrite JsMapFacts.get_set_same.
  - now rewrite Hget.
Qed.

Lemma remove_first_absent (c : Callback) (l : list Callback) :
  ~ In c l -> remove_first c l = l.
Proof.
  induction l as [|x l IH]; simpl; auto. intros Hnotin.
  destruct (Nat.eqb x c) eqn:E.
  - apply Nat.eqb_eq in E. exfalso. auto.
  - f_equal. auto.
Qed.

Lemma remove_first_split (c : Callback) (l : list Callback) :
  In c l ->
  exists before after,
    l = before ++ c :: after /\ ~ In c before /\ remove_first c l = before ++ after.
Proof.
  induction l as [|x l IH]; simpl; [tauto|]. intros Hin.
  destruct (Nat.eqb x c) eqn:E.
  - apply Nat.eqb_eq in E. subst. exists [], l. simpl. auto.
  - apply Nat.eqb_neq in E. destruct Hin as [Heq|Hin]; [congruence|].
    destruct (IH Hin) as [before [after [Hl [Hnotin Hrem]]]].
    exists (x :: before), after. simpl. rewrite Hrem, <- Hl.
    repeat split; auto. intros [Hx|Hb]; auto.
Qed.

Lemma remove_first_app_last (c : Callback) (l : list Callback) :
  ~ In c l -> remove_first c (l ++ [c]) = l.
Proof.
  induction l as [|x l IH]; simpl; intros Hnotin.
  - now rewrite Nat.eqb_refl.
  - destruct (Nat.eqb x c) eqn:E.
    + apply Nat.eqb_eq in E. exfalso. auto.
    + f_equal. auto.
Qed.

(** X6.  [off] takes away the earliest registration of the callback on the
    channel and nothing else: the registrations before and after it keep
    their order, and a callback registered several times stays registered.
    When the callback is not registered on the channel, or the channel has
    never been subscribed to, [off] changes nothing at all. *)
Theorem off_removes_earliest_registration
  (event : string) (callback : Callback) (m : Manager) :
  (In callback (subscribers event m) ->
   exists before after,
     subscribers event m = before ++ callback :: after /\
     ~ In callback before /\
     subscribers event (off event callback m) = before ++ after) /\
  (~ In callback (subscribers event m) -> off event callback m = m).
Proof.
  split.
  - intros Hin. rewrite subscribers_off. now apply remove_first_split.
  - unfold subscribers, off.
    destruct (JsMap.get event (listeners m)) as [l|] eqn:Hget; auto.
    intros Hnotin. rewrite remove_first_absent by assumption.
    rewrite JsMap_set_same_value by assumption. now destruct m.
Qed.

Lemma off_removes_earliest_registration_witness :
  let m := on "rooms" 3 (on "rooms" 5 (on "rooms" 3 Scenario.start)) in
  In 3 (subscribers "rooms" m) /\
  subscribers "rooms" m = [3; 5; 3] /\
  (exists before after,
      subscribers "rooms" m = before ++ 3 :: after /\
      ~ In 3 before /\
      subscribers "rooms" (off "rooms" 3 m) = before ++ after) /\
  subscribers "rooms" (off "rooms" 3 m) = [5; 3] /\
  ~ In 9 (subscribers "rooms" m) /\
  off "rooms" 9 m = m.
Proof.
  intros m.
  assert (Hin : In 3 (subscribers "rooms" m)) by (simpl; auto).
  assert (Hnotin : ~ In 9 (subscribers "rooms" m)).
  { simpl. intros [H|[H|[H|[]]]]; discriminate. }
  split; [exact Hin|]. split; [reflexivity|].
  split; [exact (proj1 (off_removes_earliest_registration "rooms" 3 m) Hin)|].
  split; [reflexivity|]. split; [exact Hnotin|].
  exact (proj2 (off_removes_earliest_registration "rooms" 9 m) Hnotin).
Defined.

(** X7.  Subscribing a callback that is not yet registered on the channel and
    unsubscribing it again leaves the channel with the subscribers it had,
    in the order they had. *)
Theorem on_then_off_restores_subscribers
  (event : string) (callback : Callback) (m : Manager) :
  ~ In callback (subscribers event m) ->
  subscribers event (off event callback (on event callback m)) = subscribers event m.
Proof.
  intros Hnotin. rewrite subscribers_off, subscribers_on.
  now apply remove_first_app_last.
Qed.

Lemma on_then_off_restores_subscribers_witness :
  let m := on "rooms" 5 Scenario.start in
  ~ In 8 (subscribers "rooms" m) /\
  subscribers "rooms" (off "rooms" 8 (on "rooms" 8 m)) = subscribers "rooms" m.
Proof.
  intros m.
  assert (Hnotin : ~ In 8 (subscribers "rooms" m)).
  { simpl. intros [H|[]]. discriminate. }
  split; [exact Hnotin|].
  exact (on_then_off_restores_subscribers "rooms" 8 m Hnotin).
Defined.

Lemma subscribers_on_other (event event' : string) (callback : Callback) (m : Manager) :
  event <> event' -> subscribers event' (on event callback m) = subscribers event' m.
Proof.
  intros Hne. unfold subscribers, on, JsMap.has.
  destruct (JsMap.get event (listeners m)) as [l|] eqn:Hget; simpl.
  - rewrite Hget. simpl. now rewrite JsMapFacts.get_set_other.
  - rewrite JsMapFacts.get_set_same. simpl.
    now rewrite !JsMapFacts.get_set_other.
Qed.

Lemma subscribers_off_other (event event' : string) (callback : Callback) (m : Manager) :
  event <> event' -> subscribers event' (off event callback m) = subscribers event' m.
Proof.
  intros Hne. unfold subscribers, off.
  destruct (JsMap.get event (listeners m)) as [l|] eqn:Hget; simpl; auto.
  now rewrite JsMapFacts.get_set_other.
Qed.

(** X8.  [on] and [off] act on their own channel only: the subscribers of every
    other channel, the repository, the storage and the trace stay as they
    are, and in particular neither of them calls a listener. *)
Theorem registry_calls_touch_one_channel
  (event : string) (callback : Callback) (m : Manager) :
  (forall event' : string,
      event <> event' ->
      subscribers event' (on event callback m) = subscribers event' m /\
      subscribers event' (off event callback m) = subscribers event' m) /\
  rooms (on event callback m) = rooms m /\
  gameStates (on event callback m) = gameStates m /\
  localStorage (on event callback m) = localStorage m /\
  delivered (on event callback m) = delivered m /\
  rooms (off event callback m) = rooms m /\
  gameStates (off event callback m) = gameStates m /\
  localStorage (off event callback m) = localStorage m /\
  delivered (off event callback m) = delivered m.
Proof.
  split.
  - intros event' Hne. split.
    + now apply subscribers_on_other.
    + now apply subscribers_off_other.
  - unfold on, off, JsMap.has.
    destruct (JsMap.get event (listeners m)) as [l|] eqn:Hget; simpl.
    + rewrite Hget. simpl. repeat split.
    + rewrite JsMapFacts.get_set_same. simpl. repeat split.
Qed.

Lemma registry_calls_touch_one_channel_witness :
  "rooms" <> "room:AB12CD" /\
  subscribers "room:AB12CD" (on "rooms" 4 (on "room:AB12CD" 6 Scenario.afterCreate))
    = [6].
Proof.
  assert (Hne : "rooms" <> "room:AB12CD") by discriminate.
  split; [exact Hne|].
  rewrite (proj1 (proj1 (registry_calls_touch_one_channel "rooms" 4
                           (on "room:AB12CD" 6 Scenario.afterCreate))
                        "room:AB12CD" Hne)).
  reflexivity.
Defined.

(* ================================================================= *)
(** ** [destroy] *)

Lemma notifyListeners_no_listeners (event : string) (data : Payload) (m : Manager) :
  listeners m = JsMap.empty -> notifyListeners event data m = m.
Proof. intros H. unfold notifyListeners. now rewrite H. Qed.

Lemma fold_syncRoom_no_listeners (l : list Room.t) (m : Manager) :
  listeners m = JsMap.empty ->
  delivered (fold_left syncRoom l m) = delivered m.
Proof.
  revert m. induction l as [|room l IH]; intros m Hempty; simpl; auto.
  assert (Hstep : listeners (syncRoom m room) = JsMap.empty /\
                  delivered (syncRoom m room) = delivered m).
  { unfold syncRoom.
    destruct (match JsMap.get (Room.id room) (rooms m) with
              | Some existing => Date_gt (Room.lastUpdated room) (Room.lastUpdated existing)
              | None => true
              end); auto.
    rewrite notifyListeners_no_listeners; auto. }
  destruct Hstep as [Hl Hd]. now rewrite IH, Hd.
Qed.

Lemma fold_syncGameState_no_listeners (l : list GameState.t) (m : Manager) :
  listeners m = JsMap.empty ->
  delivered (fold_left syncGameState l m) = delivered m.
Proof.
  revert m. induction l as [|state l IH]; intros m Hempty; simpl; auto.
  assert (Hstep : listeners (syncGameState m state) = JsMap.empty /\
                  delivered (syncGameState m state) = delivered m).
  { unfold syncGameState.
    destruct (match JsMap.get (GameState.roomId state) (gameStates m) with
              | Some existing =>
                  Date_gt (GameState.lastUpdated state) (GameState.lastUpdated existing)
              | None => true
              end); auto.
    rewrite notifyListeners_no_listeners; auto. }
  destruct Hstep as [Hl Hd]. now rewrite IH, Hd.
Qed.

(** X9.  [destroy] stops the timer and forgets every subscription on every
    channel, and that is all: rooms, game states and storage stay.  Were a
    tick to run on the destroyed manager, it would still merge the shared
    record into the repository, but it would call nobody. *)
Theorem destroy_silences_manager (m : Manager) :
  syncInterval (destroy m) = false /\
  (forall event : string, subscribers event (destroy m) = []) /\
  rooms (destroy m) = rooms m /\
  gameStates (destroy m) = gameStates m /\
  localStorage (destroy m) = localStorage m /\
  (forall (event : string) (data : Payload),
      notifyListeners event data (destroy m) = destroy m) /\
  delivered (syncWithOtherDevices (destroy m)) = delivered m /\
  rooms (syncWithOtherDevices (destroy m)) = rooms (syncWithOtherDevices m).
Proof.
  split; [reflexivity|]. split; [reflexivity|].
  split; [reflexivity|]. split; [reflexivity|]. split; [reflexivity|].
  split; [intros; now apply notifyListeners_no_listeners|].
  split.
  - unfold syncWithOtherDevices. simpl localStorage.
    destruct (addaMultiplayerSync (localStorage m)) as [data|]; auto.
    destruct (fold_frame syncRoom syncRoom_frame (SharedData.rooms data) (destroy m))
      as [Hl _].
    destruct (fold_frame syncGameState syncGameState_frame (SharedData.gameStates data)
                (fold_left syncRoom (SharedData.rooms data) (destroy m)))
      as [Hl' _].
    rewrite notifyListeners_no_listeners by (now rewrite Hl', Hl).
    rewrite fold_syncGameState_no_listeners by (now rewrite Hl).
    now rewrite fold_syncRoom_no_listeners.
  - destruct (addaMultiplayerSync (localStorage m)) as [data|] eqn:Hdata.
    + rewrite (proj1 (@syncWithOtherDevices_repository (destroy m) data Hdata)).
      now rewrite (proj1 (@syncWithOtherDevices_repository m data Hdata)).
    + unfold syncWithOtherDevices. simpl localStorage. now rewrite Hdata.
Qed.

(* ================================================================= *)
(** ** What the room and game-state operations leave alone *)

Lemma touches_only_room_refl (roomId : string) (m : Manager) :
  touches_only_room roomId m m.
Proof. repeat split. Qed.

Lemma touches_only_room_set (clk : Clock) (roomId : string) (room : Room.t) (m : Manager) :
  touches_only_room roomId m
    (saveToStorage clk (with_rooms (JsMap.set roomId room (rooms m)) m)).
Proof.
  repeat split. unfold getRoom. simpl.
  apply JsMapFacts.get_set_other. congruence.
Qed.

(** X10.  [createRoom], [joinRoom], [leaveRoom], [updateRoomStatus] and
    [updateGameState] change at most the room and the game state of the id
    they are called with, and the storage.  All other rooms and game
    states stay, no subscription changes, and no listener is called by
    any of them. *)
Theorem operations_touch_one_room (clk : Clock) (roomId : string) (m : Manager) :
  (forall roomData : RoomData.t,
      touches_only_room (RoomData.id roomData) m (snd (createRoom clk roomData m))) /\
  (forall p : string, touches_only_room roomId m (snd (joinRoom clk roomId p m))) /\
  (forall p : string, touches_only_room roomId m (snd (leaveRoom clk roomId p m))) /\
  (forall status : Status,
      touches_only_room roomId m (snd (updateRoomStatus clk roomId status m))) /\
  (forall gameData : Json,
      touches_only_room roomId m (updateGameState clk roomId gameData m)).
Proof.
  split; [|split; [|split; [|split]]].
  - intros roomData. apply touches_only_room_set.
  - intros p. unfold joinRoom.
    destruct (JsMap.get roomId (rooms m)) as [room|]; [|apply touches_only_room_refl].
    destruct (includes p (Room.players room)); [apply touches_only_room_refl|].
    destruct (Room.maxPlayers room <=? _)%Z; [apply touches_only_room_refl|].
    apply touches_only_room_set.
  - intros p. unfold leaveRoom.
    destruct (JsMap.get roomId (rooms m)) as [room|]; [|apply touches_only_room_refl].
    destruct (filter (fun q => negb (String.eqb q p)) (Room.players room)).
    + repeat split; unfold getRoom, getGameState;
        cbn [snd rooms gameStates saveToStorage with_localStorage with_gameStates
             with_rooms];
        apply JsMapFacts.get_delete_other; congruence.
    + apply touches_only_room_set.
  - intros status. unfold updateRoomStatus.
    destruct (JsMap.get roomId (rooms m)) as [room|]; [|apply touches_only_room_refl].
    apply touches_only_room_set.
  - intros gameData. repeat split. unfold getGameState. simpl.
    apply JsMapFacts.get_set_other. congruence.
Qed.

(** X11.  [createRoom] makes no check for an id that is already taken.  With a
    new id the room goes to the end of the room list.  With the id of an
    existing room it takes that room's place in the list: the old room,
    its players and host included, is gone, the list is no longer, and
    the old room's game state now belongs to the new room. *)
Theorem createRoom_appends_or_replaces
  (clk : Clock) (roomData : RoomData.t) (m : Manager) :
  let room := fst (createRoom clk roomData m) in
  let m' := snd (createRoom clk roomData m) in
  (getRoom (RoomData.id roomData) m = None ->
   getAllRooms m' = getAllRooms m ++ [room]) /\
  (forall old : Room.t,
      getRoom (RoomData.id roomData) m = Some old ->
      getRoom (RoomData.id roomData) m' = Some room /\
      JsMap.keys (rooms m') = JsMap.keys (rooms m) /\
      List.length (getAllRooms m') = List.length (getAllRooms m) /\
      getGameState (RoomData.id roomData) m' = getGameState (RoomData.id roomData) m).
Proof.
  intros room m'. subst room m'. unfold getRoom, getAllRooms, getGameState. simpl.
  split.
  - intros Hnone. rewrite JsMap_set_absent by assumption.
    unfold JsMap.values. now rewrite map_app.
  - intros old Hold. split; [apply JsMapFacts.get_set_same|].
    pose proof (@JsMap_set_present_keys _ _
                  (Room.mk (RoomData.id roomData) (RoomData.name roomData)
                           (RoomData.host roomData) (RoomData.players roomData)
                           (RoomData.game roomData) (RoomData.status roomData)
                           (RoomData.maxPlayers roomData) (RoomData.createdAt roomData)
                           (toISOString clk)) _ _ Hold) as Hkeys.
    split; [exact Hkeys|]. split; auto.
    unfold JsMap.values. rewrite !length_map.
    apply (f_equal (@List.length string)) in Hkeys.
    unfold JsMap.keys in Hkeys. now rewrite !length_map in Hkeys.
Qed.

Lemma createRoom_appends_or_replaces_witness :
  let roomData :=
    RoomData.mk "AB12CD" "Usurper" "mallory" ["mallory"] "Spy" waiting 2 (Instant 2400) in
  getRoom "AB12CD" Scenario.afterJoin = Some Scenario.friendsWithBob /\
  getRoom "AB12CD" (snd (createRoom Scenario.later roomData Scenario.afterJoin))
    = Some (fst (createRoom Scenario.later roomData Scenario.afterJoin)) /\
  List.length (getAllRooms (snd (createRoom Scenario.later roomData Scenario.afterJoin)))
    = List.length (getAllRooms Scenario.afterJoin).
Proof.
  intros roomData. split; [reflexivity|].
  destruct (proj2 (createRoom_appends_or_replaces Scenario.later roomData
                     Scenario.afterJoin) Scenario.friendsWithBob eq_refl)
    as [Hget [_ [Hlen _]]].
  split; [exact Hget|exact Hlen].
Defined.

(** X12.  What [leaveRoom] and [updateRoomStatus] return is what [getRoom]
    answers for that id afterwards, in every case; so is what [joinRoom]
    returns whenever it returns a room.  A room returned by [joinRoom]
    has the player among its players; a room returned by [leaveRoom] does
    not have the player, and has at least one other. *)
Theorem results_agree_with_repository
  (clk : Clock) (roomId p : string) (status : Status) (m : Manager) :
  getRoom roomId (snd (leaveRoom clk roomId p m)) = fst (leaveRoom clk roomId p m) /\
  getRoom roomId (snd (updateRoomStatus clk roomId status m))
    = fst (updateRoomStatus clk roomId status m) /\
  (forall room' : Room.t,
      fst (joinRoom clk roomId p m) = Some room' ->
      getRoom roomId (snd (joinRoom clk roomId p m)) = Some room' /\
      In p (Room.players room')) /\
  (forall room' : Room.t,
      fst (leaveRoom clk roomId p m) = Some room' ->
      ~ In p (Room.players room') /\ Room.players room' <> []).
Proof.
  unfold getRoom. split; [|split; [|split]].
  - unfold leaveRoom.
    destruct (JsMap.get roomId (rooms m)) as [room|] eqn:Hget; auto.
    destruct (filter (fun q => negb (String.eqb q p)) (Room.players room)).
    + cbn [snd fst rooms saveToStorage with_localStorage with_gameStates with_rooms].
      apply JsMapFacts.get_delete_same.
    + simpl. apply JsMapFacts.get_set_same.
  - unfold updateRoomStatus.
    destruct (JsMap.get roomId (rooms m)) as [room|] eqn:Hget; auto.
    simpl. apply JsMapFacts.get_set_same.
  - intros room'. unfold joinRoom.
    destruct (JsMap.get roomId (rooms m)) as [room|] eqn:Hget; [|discriminate].
    destruct (includes p (Room.players room)) eqn:Hinc.
    + simpl. intros [= <-]. split; auto. now apply includes_In.
    + destruct (Room.maxPlayers room <=? _)%Z; [discriminate|].
      simpl. intros [= <-]. split; [apply JsMapFacts.get_set_same|].
      simpl. apply in_or_app. right. now left.
  - intros room'. unfold leaveRoom.
    destruct (JsMap.get roomId (rooms m)) as [room|] eqn:Hget; [|discriminate].
    destruct (filter (fun q => negb (String.eqb q p)) (Room.players room))
      as [|first rest] eqn:Hfilter; [discriminate|].
    cbn [fst]. intros [= <-]. cbn [Room.players]. split; [|discriminate].
    rewrite <- Hfilter. intros Hin. apply filter_out_In in Hin. tauto.
Qed.

Lemma results_agree_with_repository_witness :
  fst (leaveRoom Scenario.later "AB12CD" "alice" Scenario.afterJoin)
    = Some (Room.mk "AB12CD" "Friends" "bob" ["bob"] "Spy" waiting 2
                    (Instant 1000) (Instant 2500)) /\
  ~ In "alice" ["bob"].
Proof.
  split; [reflexivity|].
  exact (proj1 (proj2 (proj2 (proj2 (results_agree_with_repository Scenario.later
           "AB12CD" "alice" waiting Scenario.afterJoin))) _ eq_refl)).
Defined.

(** X13.  A player who joins a room and leaves it again leaves the room as it
    was, up to [lastUpdated]: same players in the same order, same host
    (the player, not having been a member, is taken not to be the
    recorded host), same status. *)
Theorem join_then_leave_restores_room
  (clk clk' : Clock) (roomId p : string) (m : Manager) (room : Room.t) :
  getRoom roomId m = Some room ->
  ~ In p (Room.players room) ->
  Room.players room <> [] ->
  Room.host room <> p ->
  (Z.of_nat (List.length (Room.players room)) < Room.maxPlayers room)%Z ->
  fst (leaveRoom clk' roomId p (snd (joinRoom clk roomId p m))) =
  Some (Room.mk (Room.id room) (Room.name room) (Room.host room) (Room.players room)
                (Room.game room) (Room.status room) (Room.maxPlayers room)
                (Room.createdAt room) (Instant (newDate clk'))).
Proof.
  intros Hget Hnotin Hne Hhost Hroom.
  rewrite (@joinRoom_appends clk roomId p m room Hget Hnotin Hroom). simpl snd.
  assert (Hfilter : filter (fun q => negb (String.eqb q p)) (Room.players room ++ [p])
                    = Room.players room).
  { rewrite filter_app. simpl. rewrite String.eqb_refl. simpl.
    rewrite app_nil_r. now apply filter_out_absent. }
  destruct (Room.players room) as [|first rest] eqn:Hplayers; [congruence|].
  unfold leaveRoom. cbn [rooms saveToStorage with_localStorage with_rooms].
  rewrite JsMapFacts.get_set_same. cbn [Room.players Room.host].
  rewrite Hfilter. cbn [fst].
  apply String.eqb_neq in Hhost. rewrite Hhost. reflexivity.
Qed.

Lemma join_then_leave_restores_room_witness :
  getRoom "AB12CD" Scenario.afterCreate = Some Scenario.friends /\
  ~ In "bob" (Room.players Scenario.friends) /\
  Room.players Scenario.friends <> [] /\
  Room.host Scenario.friends <> "bob" /\
  (Z.of_nat (List.length (Room.players Scenario.friends))
   < Room.maxPlayers Scenario.friends)%Z /\
  fst (leaveRoom Scenario.later "AB12CD" "bob"
         (snd (joinRoom Scenario.noon "AB12CD" "bob" Scenario.afterCreate)))
  = Some (Room.mk "AB12CD" "Friends" "alice" ["alice"] "Spy" waiting 2
                  (Instant 1000) (Instant 2500)).
Proof.
  assert (Hnot : ~ In "bob" (Room.players Scenario.friends)).
  { simpl. intros [H|[]]. discriminate. }
  split; [reflexivity|]. split; [exact Hnot|].
  split; [simpl; discriminate|]. split; [simpl; discriminate|].
  split; [simpl; lia|].
  apply (@join_then_leave_restores_room Scenario.noon Scenario.later "AB12CD" "bob"
           Scenario.afterCreate Scenario.friends eq_refl Hnot).
  - simpl. discriminate.
  - simpl. discriminate.
  - simpl. lia.
Defined.

(** X14.  The players of a room stay pairwise distinct: if they are so before
    [joinRoom], [leaveRoom] or [updateRoomStatus], they are so in the room
    that is returned. *)
Theorem players_stay_distinct
  (clk : Clock) (roomId p : string) (status : Status) (m : Manager) (room : Room.t) :
  getRoom roomId m = Some room ->
  NoDup (Room.players room) ->
  (forall room', fst (joinRoom clk roomId p m) = Some room' ->
                 NoDup (Room.players room')) /\
  (forall room', fst (leaveRoom clk roomId p m) = Some room' ->
                 NoDup (Room.players room')) /\
  (forall room', fst (updateRoomStatus clk roomId status m) = Some room' ->
                 NoDup (Room.players room')).
Proof.
  unfold getRoom. intros Hget Hnd. split; [|split]; intros room'.
  - unfold joinRoom. rewrite Hget.
    destruct (includes p (Room.players room)) eqn:Hinc.
    + now intros [= <-].
    + destruct (Room.maxPlayers room <=? _)%Z; [discriminate|].
      cbn [fst]. intros [= <-]. cbn [Room.players].
      apply NoDup_app; auto.
      * constructor; [intros []|constructor].
      * intros x Hx [<-|[]]. apply includes_In in Hx. congruence.
  - unfold leaveRoom. rewrite Hget.
    destruct (filter (fun q => negb (String.eqb q p)) (Room.players room))
      as [|first rest] eqn:Hfilter; [discriminate|].
    cbn [fst]. intros [= <-]. cbn [Room.players].
    rewrite <- Hfilter. now apply NoDup_filter.
  - unfold updateRoomStatus. rewrite Hget. cbn [fst]. now intros [= <-].
Qed.

Lemma players_stay_distinct_witness :
  getRoom "AB12CD" Scenario.afterCreate = Some Scenario.friends /\
  NoDup (Room.players Scenario.friends) /\
  NoDup ["alice"; "bob"].
Proof.
  assert (Hnd : NoDup (Room.players Scenario.friends)).
  { simpl. constructor; [intros []|constructor]. }
  split; [reflexivity|]. split; [exact Hnd|].
  exact (proj1 (@players_stay_distinct Scenario.later "AB12CD" "bob" waiting
                  Scenario.afterCreate Scenario.friends eq_refl Hnd)
               Scenario.friendsWithBob eq_refl).
Defined.

(** X15.  [updateGameState] asks for no room: it stores a game state under any
    id, with the payload and the reading of the clock and with neither
    [currentPlayer] nor [moves], replacing whatever game state was there
    before, and persists.  A second update wins over the first whatever
    the two clocks show. *)
Theorem updateGameState_replaces_wholesale
  (clk clk' : Clock) (roomId : string) (gameData gameData' : Json) (m : Manager) :
  getGameState roomId (updateGameState clk roomId gameData m) =
    Some (GameState.mk roomId None (Some gameData) None (Instant (newDate clk))) /\
  rooms (updateGameState clk roomId gameData m) = rooms m /\
  persisted clk (updateGameState clk roomId gameData m) /\
  getGameState roomId
    (updateGameState clk' roomId gameData' (updateGameState clk roomId gameData m)) =
    Some (GameState.mk roomId None (Some gameData') None (Instant (newDate clk'))) /\
  JsMap.keys (gameStates
    (updateGameState clk' roomId gameData' (updateGameState clk roomId gameData m))) =
  JsMap.keys (gameStates (updateGameState clk roomId gameData m)).
Proof.
  unfold getGameState. simpl. rewrite !JsMapFacts.get_set_same.
  repeat split.
  eapply JsMap_set_present_keys. apply JsMapFacts.get_set_same.
Qed.

(* ================================================================= *)
(** ** The room screen *)

(** X20.  The screen's join handler never shows 'Failed to join room': the checks
    it makes before calling the manager rule out both ways in which the
    manager's [joinRoom] returns [null].  Every outcome other than a join
    leaves the manager as it was.  After a join the user is a player of
    the room, the room is within its capacity and it is what [getRoom]
    returns.  The handler looks at the capacity before it looks at the
    membership: a user who is already a player of a room that is full is
    told that the room is full. *)
Theorem screen_joinRoom_outcomes
  (clk : Clock) (upperRoomId username : string) (m : Manager) :
  fst (RoomSystem.joinRoom clk upperRoomId username m) <> RoomSystem.FailedToJoin /\
  (forall room' : Room.t,
      fst (RoomSystem.joinRoom clk upperRoomId username m) = RoomSystem.Joined room' ->
      In username (Room.players room') /\
      (Z.of_nat (List.length (Room.players room')) <= Room.maxPlayers room')%Z /\
      Room.status room' <> playing /\
      getRoom upperRoomId (snd (RoomSystem.joinRoom clk upperRoomId username m))
        = Some room') /\
  ((forall room' : Room.t,
       fst (RoomSystem.joinRoom clk upperRoomId username m) <> RoomSystem.Joined room') ->
   snd (RoomSystem.joinRoom clk upperRoomId username m) = m) /\
  (forall room : Room.t,
      getRoom upperRoomId m = Some room ->
      Room.status room <> playing ->
      (Room.maxPlayers room <= Z.of_nat (List.length (Room.players room)))%Z ->
      RoomSystem.joinRoom clk upperRoomId username m = (RoomSystem.RoomIsFull, m)).
Proof.
  unfold RoomSystem.joinRoom.
  destruct (getRoom upperRoomId m) as [room|] eqn:Hget.
  - assert (Hopen : Room.status room <> playing ->
      (let r :=
         if (Room.maxPlayers room <=? Z.of_nat (List.length (Room.players room)))%Z
         then (RoomSystem.RoomIsFull, m)
         else if includes username (Room.players room)
              then (RoomSystem.AlreadyInRoom room, m)
              else match joinRoom clk upperRoomId username m with
                   | (None, m') => (RoomSystem.FailedToJoin, m')
                   | (Some updatedRoom, m') => (RoomSystem.Joined updatedRoom, m')
                   end in
       fst r <> RoomSystem.FailedToJoin /\
       (forall room', fst r = RoomSystem.Joined room' ->
          In username (Room.players room') /\
          (Z.of_nat (List.length (Room.players room')) <= Room.maxPlayers room')%Z /\
          Room.status room' <> playing /\
          getRoom upperRoomId (snd r) = Some room') /\
       ((forall room', fst r <> RoomSystem.Joined room') -> snd r = m))).
    { intros Hstatus.
      destruct (Room.maxPlayers room <=? _)%Z eqn:Hfull; cbn zeta.
      - repeat split; try discriminate.
      - destruct (includes username (Room.players room)) eqn:Hinc.
        + repeat split; try discriminate.
        + apply Z.leb_gt in Hfull.
          assert (Hnotin : ~ In username (Room.players room)).
          { intros Hin. apply includes_In in Hin. congruence. }
          rewrite (@joinRoom_appends clk upperRoomId username m room Hget Hnotin Hfull).
          cbn [fst snd]. split; [discriminate|]. split.
          * intros room' [= <-]. cbn [Room.players Room.maxPlayers Room.status].
            split; [apply in_or_app; right; now left|].
            split; [rewrite length_app; simpl; lia|].
            split; [assumption|].
            unfold getRoom. simpl. apply JsMapFacts.get_set_same.
          * intros Hnever. exfalso. eapply Hnever. reflexivity. }
    destruct (Room.status room) eqn:Hstatus.
    + destruct Hopen as [H1 [H2 H3]]; [discriminate|].
      split; [exact H1|]. split; [exact H2|]. split; [exact H3|].
      intros room0 [= <-] _ Hfull. apply Z.leb_le in Hfull. now rewrite Hfull.
    + split; [discriminate|]. split; [discriminate|]. split; [reflexivity|].
      intros room0 [= <-] Hne. congruence.
    + destruct Hopen as [H1 [H2 H3]]; [discriminate|].
      split; [exact H1|]. split; [exact H2|]. split; [exact H3|].
      intros room0 [= <-] _ Hfull. apply Z.leb_le in Hfull. now rewrite Hfull.
  - split; [discriminate|]. split; [discriminate|]. split; [reflexivity|].
    discriminate.
Qed.

Lemma screen_joinRoom_outcomes_witness :
  getRoom "AB12CD" Scenario.afterJoin = Some Scenario.friendsWithBob /\
  Room.status Scenario.friendsWithBob <> playing /\
  (Room.maxPlayers Scenario.friendsWithBob
   <= Z.of_nat (List.length (Room.players Scenario.friendsWithBob)))%Z /\
  In "bob" (Room.players Scenario.friendsWithBob) /\
  RoomSystem.joinRoom Scenario.later "AB12CD" "bob" Scenario.afterJoin
    = (RoomSystem.RoomIsFull, Scenario.afterJoin).
Proof.
  split; [reflexivity|]. split; [discriminate|]. split; [simpl; lia|].
  split; [simpl; auto|].
  apply (proj2 (proj2 (proj2 (screen_joinRoom_outcomes Scenario.later "AB12CD" "bob"
                                Scenario.afterJoin)))
               Scenario.friendsWithBob).
  - reflexivity.
  - discriminate.
  - simpl. lia.
Defined.

(** X21.  The screen's [startGame] goes by the host recorded in the screen's own
    copy of the room.  If that is not the user, nothing happens.  If it
    is, the room of that id gets status [playing] whatever its status and
    however many players it has, and keeps the players and the host it has
    in the repository; if the repository has no such room any more, the
    screen's current room becomes [null]. *)
Theorem startGame_goes_by_screen_copy
  (clk : Clock) (current : Room.t) (username : string) (m : Manager) :
  (Room.host current <> username ->
   RoomSystem.startGame clk (Some current) username m = (Some current, m)) /\
  (Room.host current = username ->
   getRoom (Room.id current) m = None ->
   RoomSystem.startGame clk (Some current) username m = (None, m)) /\
  (forall room : Room.t,
      Room.host current = username ->
      getRoom (Room.id current) m = Some room ->
      exists room' : Room.t,
        fst (RoomSystem.startGame clk (Some current) username m) = Some room' /\
        getRoom (Room.id current) (snd (RoomSystem.startGame clk (Some current) username m))
          = Some room' /\
        Room.status room' = playing /\
        Room.players room' = Room.players room /\
        Room.host room' = Room.host room).
Proof.
  unfold RoomSystem.startGame. split; [|split].
  - intros Hne. apply String.eqb_neq in Hne. now rewrite Hne.
  - intros Heq Hget. apply String.eqb_eq in Heq. rewrite Heq. simpl.
    unfold getRoom in Hget. unfold updateRoomStatus. now rewrite Hget.
  - intros room Heq Hget. apply String.eqb_eq in Heq. rewrite Heq. simpl.
    rewrite (@updateRoomStatus_found clk (Room.id current) playing m room Hget).
    eexists. split; [reflexivity|]. simpl.
    split; [unfold getRoom; simpl; apply JsMapFacts.get_set_same|].
    repeat split.
Qed.

Lemma startGame_goes_by_screen_copy_witness :
  Room.host Scenario.friends = "alice" /\
  getRoom (Room.id Scenario.friends) Scenario.afterJoin = Some Scenario.friendsWithBob /\
  exists room' : Room.t,
    fst (RoomSystem.startGame Scenario.later (Some Scenario.friends) "alice"
           Scenario.afterJoin) = Some room' /\
    getRoom (Room.id Scenario.friends)
      (snd (RoomSystem.startGame Scenario.later (Some Scenario.friends) "alice"
              Scenario.afterJoin)) = Some room' /\
    Room.status room' = playing /\
    Room.players room' = Room.players Scenario.friendsWithBob /\
    Room.host room' = Room.host Scenario.friendsWithBob.
Proof.
  split; [reflexivity|]. split; [reflexivity|].
  apply (proj2 (proj2 (startGame_goes_by_screen_copy Scenario.later Scenario.friends
                         "alice" Scenario.afterJoin))); reflexivity.
Defined.

(** X22.  The list update of the per-room listener replaces the rooms that have
    the id of the updated room and nothing else: the ids of the list and
    their order stay, a room that is not yet in the list is not added, and
    applying the same update twice is the same as applying it once. *)
Theorem handleRoomUpdate_keeps_ids (updatedRoom : Room.t) (prev : list Room.t) :
  map Room.id (RoomSystem.handleRoomUpdate updatedRoom prev) = map Room.id prev /\
  (forall room : Room.t,
      In room (RoomSystem.handleRoomUpdate updatedRoom prev) ->
      room = updatedRoom \/ (In room prev /\ Room.id room <> Room.id updatedRoom)) /\
  (~ In (Room.id updatedRoom) (map Room.id prev) ->
   RoomSystem.handleRoomUpdate updatedRoom prev = prev) /\
  RoomSystem.handleRoomUpdate updatedRoom (RoomSystem.handleRoomUpdate updatedRoom prev)
    = RoomSystem.handleRoomUpdate updatedRoom prev.
Proof.
  unfold RoomSystem.handleRoomUpdate. split; [|split; [|split]].
  - induction prev as [|room prev IH]; simpl; auto.
    rewrite IH. destruct (String.eqb (Room.id room) (Room.id updatedRoom)) eqn:E; auto.
    apply String.eqb_eq in E. now rewrite E.
  - intros room Hin. apply in_map_iff in Hin. destruct Hin as [r0 [Heq Hin]].
    destruct (String.eqb (Room.id r0) (Room.id updatedRoom)) eqn:E; auto.
    apply String.eqb_neq in E. subst. auto.
  - induction prev as [|room prev IH]; simpl; auto. intros Hnotin.
    destruct (String.eqb (Room.id room) (Room.id updatedRoom)) eqn:E.
    + apply String.eqb_eq in E. exfalso. auto.
    + f_equal. auto.
  - rewrite map_map. apply map_ext. intros room.
    destruct (String.eqb (Room.id room) (Room.id updatedRoom)) eqn:E; rewrite ?E; auto.
    now rewrite String.eqb_refl.
Qed.

Lemma handleRoomUpdate_keeps_ids_witness :
  ~ In (Room.id Scenario.friendsWithBob) (map Room.id []) /\
  RoomSystem.handleRoomUpdate Scenario.friendsWithBob [] = [] /\
  RoomSystem.handleRoomUpdate Scenario.friendsWithBob [Scenario.friends]
    = [Scenario.friendsWithBob].
Proof.
  split; [intros []|]. split; [|reflexivity].
  apply (proj1 (proj2 (proj2 (handleRoomUpdate_keeps_ids Scenario.friendsWithBob [])))).
  intros [].
Defined.

(** X23.  [formatTimeAgo] in terms of the age in milliseconds: anything younger
    than a minute, a date in the future included, is 'Just now'; then come
    whole minutes from 1 to 59, whole hours from 1 to 23, and whole days
    from 1 on, each rounded down. *)
Theorem formatTimeAgo_ranges (now date : Z) :
  let age := (now - date)%Z in
  ((age < 60000)%Z -> RoomSystem.formatTimeAgo now date = "Just now") /\
  ((60000 <= age < 3600000)%Z ->
   RoomSystem.formatTimeAgo now date
     = (RoomSystem.Number_toString (age / 60000) ++ "m ago")%string /\
   (1 <= age / 60000 <= 59)%Z) /\
  ((3600000 <= age < 86400000)%Z ->
   RoomSystem.formatTimeAgo now date
     = (RoomSystem.Number_toString (age / 3600000) ++ "h ago")%string /\
   (1 <= age / 3600000 <= 23)%Z) /\
  ((86400000 <= age)%Z ->
   RoomSystem.formatTimeAgo now date
     = (RoomSystem.Number_toString (age / 86400000) ++ "d ago")%string /\
   (1 <= age / 86400000)%Z).
Proof.
  intros age. unfold RoomSystem.formatTimeAgo. fold age.
  assert (Hh : (age / 60000 / 60 = age / 3600000)%Z)
    by (rewrite Z.div_div by lia; reflexivity).
  assert (Hd : (age / 60000 / 60 / 24 = age / 86400000)%Z)
    by (rewrite !Z.div_div by lia; reflexivity).
  rewrite Hd, Hh.
  pose proof (Z.div_mod age 60000 ltac:(lia)) as E1.
  pose proof (Z.mod_pos_bound age 60000 ltac:(lia)) as B1.
  pose proof (Z.div_mod age 3600000 ltac:(lia)) as E2.
  pose proof (Z.mod_pos_bound age 3600000 ltac:(lia)) as B2.
  pose proof (Z.div_mod age 86400000 ltac:(lia)) as E3.
  pose proof (Z.mod_pos_bound age 86400000 ltac:(lia)) as B3.
  split; [|split; [|split]]; intros Hage.
  - assert (H : (age / 60000 <? 1)%Z = true) by (apply Z.ltb_lt; lia).
    now rewrite H.
  - assert (H1 : (age / 60000 <? 1)%Z = false) by (apply Z.ltb_ge; lia).
    assert (H2 : (age / 60000 <? 60)%Z = true) by (apply Z.ltb_lt; lia).
    rewrite H1, H2. split; [reflexivity|lia].
  - assert (H1 : (age / 60000 <? 1)%Z = false) by (apply Z.ltb_ge; lia).
    assert (H2 : (age / 60000 <? 60)%Z = false) by (apply Z.ltb_ge; lia).
    assert (H3 : (age / 3600000 <? 24)%Z = true) by (apply Z.ltb_lt; lia).
    rewrite H1, H2, H3. split; [reflexivity|lia].
  - assert (H1 : (age / 60000 <? 1)%Z = false) by (apply Z.ltb_ge; lia).
    assert (H2 : (age / 60000 <? 60)%Z = false) by (apply Z.ltb_ge; lia).
    assert (H3 : (age / 3600000 <? 24)%Z = false) by (apply Z.ltb_ge; lia).
    rewrite H1, H2, H3. split; [reflexivity|lia].
Qed.

Lemma formatTimeAgo_ranges_witness :
  (3600000 <= 7259000 - 1000 < 86400000)%Z /\
  RoomSystem.formatTimeAgo 7259000 1000 = "2h ago".
Proof.
  split; [lia|].
  rewrite (proj1 (proj1 (proj2 (proj2 (formatTimeAgo_ranges 7259000 1000)))
                        ltac:(lia))).
  reflexivity.
Defined.

(* ================================================================= *)
(** ** Loading from the storage *)

Lemma find_app_last {A : Type} (f : A -> bool) (l : list A) (a : A) :
  find f (l ++ [a]) =
  match find f l with
  | Some v => Some v
  | None => if f a then Some a else None
  end.
Proof.
  induction l as [|x l IH]; simpl; auto.
  destruct (f x); auto.
Qed.

Lemma fold_set_get {A : Type} (key : A -> string) (l : list A)
  (acc : JsMap.t A) (k : string) :
  JsMap.get k (fold_left (fun entities v => JsMap.set (key v) v entities) l acc) =
  match find (fun v => String.eqb (key v) k) (rev l) with
  | Some v => Some v
  | None => JsMap.get k acc
  end.
Proof.
  revert acc. induction l as [|a l IH]; intros acc; simpl; auto.
  rewrite IH, find_app_last.
  destruct (find (fun v => String.eqb (key v) k) (rev l)); auto.
  rewrite JsMapFacts.get_set. now destruct (String.eqb (key a) k).
Qed.

Lemma fold_set_values {A : Type} (key : A -> string) (entities acc : JsMap.t A) :
  Forall (fun e => fst e = key (snd e)) entities ->
  NoDup (JsMap.keys (acc ++ entities)) ->
  fold_left (fun rs v => JsMap.set (key v) v rs) (JsMap.values entities) acc =
  acc ++ entities.
Proof.
  revert acc. induction entities as [|[k v] entities IH]; intros acc Hall Hnd; simpl.
  - now rewrite app_nil_r.
  - inversion Hall as [|? ? Hk Hall']; subst. simpl in Hk. subst k.
    rewrite JsMap_set_absent.
    + rewrite IH; auto.
      * now rewrite <- app_assoc.
      * now rewrite <- app_assoc.
    + apply JsMap_get_None_keys. unfold JsMap.keys in *.
      rewrite map_app in Hnd. simpl in Hnd.
      apply NoDup_remove_2 in Hnd. intros Hin. apply Hnd.
      apply in_or_app. now left.
Qed.

Lemma loadFromStorage_repository (m : Manager) :
  rooms (loadFromStorage m) =
    match addaGameRooms (localStorage m) with
    | Some roomsArray =>
        fold_left (fun rs room => JsMap.set (Room.id room) room rs) roomsArray (rooms m)
    | None => rooms m
    end /\
  gameStates (loadFromStorage m) =
    match addaGameStates (localStorage m) with
    | Some gameStatesArray =>
        fold_left (fun gs state => JsMap.set (GameState.roomId state) state gs)
                  gameStatesArray (gameStates m)
    | None => gameStates m
    end /\
  listeners (loadFromStorage m) = listeners m /\
  localStorage (loadFromStorage m) = localStorage m /\
  delivered (loadFromStorage m) = delivered m.
Proof.
  assert (Hrooms : forall l acc,
    let r := fold_left (fun acc room =>
               with_rooms (JsMap.set (Room.id room) room (rooms acc)) acc) l acc in
    rooms r = fold_left (fun rs room => JsMap.set (Room.id room) room rs) l (rooms acc) /\
    gameStates r = gameStates acc /\ listeners r = listeners acc /\
    localStorage r = localStorage acc /\ delivered r = delivered acc).
  { induction l as [|room l IH]; intros acc; simpl; auto.
    destruct (IH (with_rooms (JsMap.set (Room.id room) room (rooms acc)) acc))
      as [H1 [H2 [H3 [H4 H5]]]]. simpl in *. now rewrite H1, H2, H3, H4, H5. }
  assert (Hstates : forall l acc,
    let r := fold_left (fun acc state =>
               with_gameStates (JsMap.set (GameState.roomId state) state (gameStates acc))
                               acc) l acc in
    gameStates r = fold_left (fun gs state => JsMap.set (GameState.roomId state) state gs)
                             l (gameStates acc) /\
    rooms r = rooms acc /\ listeners r = listeners acc /\
    localStorage r = localStorage acc /\ delivered r = delivered acc).
  { induction l as [|state l IH]; intros acc; simpl; auto.
    destruct (IH (with_gameStates
                    (JsMap.set (GameState.roomId state) state (gameStates acc)) acc))
      as [H1 [H2 [H3 [H4 H5]]]]. simpl in *. now rewrite H1, H2, H3, H4, H5. }
  unfold loadFromStorage.
  set (m1 := match addaGameRooms (localStorage m) with
             | Some roomsArray => _ | None => m end).
  assert (Hm1 : rooms m1 =
                match addaGameRooms (localStorage m) with
                | Some roomsArray =>
                    fold_left (fun rs room => JsMap.set (Room.id room) room rs)
                              roomsArray (rooms m)
                | None => rooms m
                end /\
                gameStates m1 = gameStates m /\ listeners m1 = listeners m /\
                localStorage m1 = localStorage m /\ delivered m1 = delivered m).
  { subst m1. destruct (addaGameRooms (localStorage m)) as [l|];
      [apply Hrooms | repeat split]. }
  destruct Hm1 as [H1 [H2 [H3 [H4 H5]]]]. rewrite H4.
  destruct (addaGameStates (localStorage m)) as [l|].
  - destruct (Hstates l m1) as [G1 [G2 [G3 [G4 G5]]]]. simpl in *.
    now rewrite G1, G2, G3, G4, G5, H1, H2, H3, H4, H5.
  - now rewrite H1, H2, H3, H4, H5.
Qed.

(** X17.  A new manager holds what the two collection keys of the storage hold;
    the shared record plays no part at that point.  Dates play none
    either: when an id is listed several times, the entry listed last is
    the one the manager has.  The constructor writes nothing, has no
    subscribers and has called nobody; its timer is armed. *)
Theorem newManager_loads_last_entry (s : LocalStorage) (roomId : string) :
  getRoom roomId (newManager s) =
    match addaGameRooms s with
    | Some roomsArray =>
        find (fun room => String.eqb (Room.id room) roomId) (rev roomsArray)
    | None => None
    end /\
  getGameState roomId (newManager s) =
    match addaGameStates s with
    | Some gameStatesArray =>
        find (fun state => String.eqb (GameState.roomId state) roomId)
             (rev gameStatesArray)
    | None => None
    end /\
  localStorage (newManager s) = s /\
  listeners (newManager s) = JsMap.empty /\
  delivered (newManager s) = [] /\
  syncInterval (newManager s) = true.
Proof.
  unfold newManager, startSync, getRoom, getGameState. simpl.
  destruct (loadFromStorage_repository (fresh s)) as [Hr [Hg [Hl [Hs Hd]]]].
  simpl in *. rewrite Hr, Hg, Hl, Hs, Hd.
  repeat split.
  - destruct (addaGameRooms s) as [l|]; auto.
    rewrite fold_set_get. now destruct (find _ (rev l)).
  - destruct (addaGameStates s) as [l|]; auto.
    rewrite fold_set_get. now destruct (find _ (rev l)).
Qed.

(** X18.  Reloading restores the repository: a manager constructed on the
    storage that [saveToStorage] has written has the same rooms and the
    same game states, in the same order, as the manager that wrote it. *)
Theorem reload_restores_repository (clk : Clock) (m : Manager) :
  well_keyed m ->
  rooms (newManager (localStorage (saveToStorage clk m))) = rooms m /\
  gameStates (newManager (localStorage (saveToStorage clk m))) = gameStates m /\
  getAllRooms (newManager (localStorage (saveToStorage clk m))) = getAllRooms m.
Proof.
  intros [[Hrn Hra] [Hgn Hga]].
  unfold newManager, startSync, getAllRooms. simpl.
  destruct (loadFromStorage_repository (fresh (localStorage (saveToStorage clk m))))
    as [Hr [Hg _]].
  simpl in Hr, Hg. rewrite Hr, Hg.
  rewrite (@fold_set_values _ Room.id (rooms m) JsMap.empty Hra Hrn).
  rewrite (@fold_set_values _ GameState.roomId (gameStates m) JsMap.empty Hga Hgn).
  auto.
Qed.

Lemma reload_restores_repository_witness :
  well_keyed Scenario.afterJoin /\
  getAllRooms (newManager (localStorage (saveToStorage Scenario.later Scenario.afterJoin)))
    = [Scenario.friendsWithBob].
Proof.
  assert (Hkeyed : well_keyed Scenario.afterJoin).
  { split; split; simpl; repeat constructor. intros []. }
  split; [exact Hkeyed|].
  rewrite (proj2 (proj2 (reload_restores_repository Scenario.later Hkeyed))).
  reflexivity.
Defined.

(* ================================================================= *)
(** ** Every manager has its entities under their own ids *)

Lemma repository_on (event : string) (callback : Callback) (m : Manager) :
  rooms (on event callback m) = rooms m /\
  gameStates (on event callback m) = gameStates m.
Proof.
  unfold on, JsMap.has.
  destruct (JsMap.get event (listeners m)) as [l|] eqn:Hget; simpl.
  - rewrite Hget. simpl. auto.
  - rewrite JsMapFacts.get_set_same. simpl. auto.
Qed.

Lemma repository_off (event : string) (callback : Callback) (m : Manager) :
  rooms (off event callback m) = rooms m /\
  gameStates (off event callback m) = gameStates m.
Proof.
  unfold off. destruct (JsMap.get event (listeners m)) as [l|]; simpl; auto.
Qed.

Lemma well_keyed_perform (m : Manager) (c : Call) :
  well_keyed m -> well_keyed (perform m c).
Proof.
  intros Hm. destruct c as [clk rd|clk rid p|clk rid p|clk rid st|clk rid gd|e cb|e cb| | |s];
    simpl.
  - apply (well_keyed_operations clk Hm).
  - apply (well_keyed_operations clk Hm).
  - apply (well_keyed_operations clk Hm).
  - apply (well_keyed_operations clk Hm).
  - apply (well_keyed_operations clk Hm).
  - unfold well_keyed. destruct (repository_on e cb m) as [-> ->]. exact Hm.
  - unfold well_keyed. destruct (repository_off e cb m) as [-> ->]. exact Hm.
  - exact Hm.
  - now apply well_keyed_syncWithOtherDevices.
  - exact Hm.
Qed.

Lemma well_keyed_newManager (s : LocalStorage) : well_keyed (newManager s).
Proof.
  unfold newManager, startSync.
  pose proof (well_keyed_loadFromStorage (well_keyed_fresh s)) as H.
  exact H.
Qed.

(** X19.  Whatever the storage held when the manager was constructed, and
    whatever is done afterwards, public calls, ticks and writes of other
    tabs to the storage in any order, every room of the repository sits
    under its own id and so does every game state.  Hence the room list
    never shows an id twice, and [getRoom] never answers with a room of
    another id. *)
Theorem entities_always_under_own_id (s : LocalStorage) (calls : list Call) :
  let m := fold_left perform calls (newManager s) in
  NoDup (map Room.id (getAllRooms m)) /\
  NoDup (map GameState.roomId (JsMap.values (gameStates m))) /\
  (forall (roomId : string) (room : Room.t),
      getRoom roomId m = Some room -> Room.id room = roomId) /\
  (forall (roomId : string) (state : GameState.t),
      getGameState roomId m = Some state -> GameState.roomId state = roomId).
Proof.
  intros m.
  assert (Hm : well_keyed m).
  { subst m. generalize (well_keyed_newManager s). generalize (newManager s).
    induction calls as [|c calls IH]; intros m0 Hm0; simpl; auto.
    apply IH. now apply well_keyed_perform. }
  destruct Hm as [Hr Hg]. unfold getAllRooms, getRoom, getGameState.
  split; [now apply keyed_by_values|]. split; [now apply keyed_by_values|].
  split.
  - intros roomId room Hget. symmetry.
    exact (@keyed_by_get _ Room.id roomId room (rooms m) Hr Hget).
  - intros roomId state Hget. symmetry.
    exact (@keyed_by_get _ GameState.roomId roomId state (gameStates m) Hg Hget).
Qed.

Lemma entities_always_under_own_id_witness :
  let calls :=
    [CallCreateRoom Scenario.noon Scenario.friendsData;
     CallJoinRoom Scenario.later "AB12CD" "bob";
     ForeignWrite (localStorage Scenario.repeatedIds);
     Tick] in
  getRoom "AB12CD" (fold_left perform calls (newManager Scenario.emptyStorage))
    = Some Scenario.friendsRenamed /\
  Room.id Scenario.friendsRenamed = "AB12CD".
Proof.
  intros calls. split; [reflexivity|].
  exact (proj1 (proj2 (proj2 (entities_always_under_own_id Scenario.emptyStorage calls)))
               "AB12CD" Scenario.friendsRenamed eq_refl).
Defined.

(* ================================================================= *)
(** ** The calls a tick makes *)

Lemma flat_map_ext_in {A B : Type} (f g : A -> list B) (l : list A) :
  (forall a, In a l -> f a = g a) -> flat_map f l = flat_map g l.
Proof.
  induction l as [|a l IH]; simpl; auto. intros H.
  rewrite (H a) by now left. f_equal. apply IH. intros b Hb. apply H. now right.
Qed.

Lemma syncRoom_calls (m : Manager) (room : Room.t) :
  delivered (syncRoom m room) = delivered m ++ room_calls m room.
Proof.
  unfold syncRoom, room_calls, wins, getRoom.
  destruct (match JsMap.get (Room.id room) (rooms m) with
            | Some existing => Date_gt (Room.lastUpdated room) (Room.lastUpdated existing)
            | None => true
            end).
  - now rewrite notifyListeners_spec.
  - now rewrite app_nil_r.
Qed.

Lemma syncGameState_calls (m : Manager) (state : GameState.t) :
  delivered (syncGameState m state) = delivered m ++ game_calls m state.
Proof.
  unfold syncGameState, game_calls, wins, getGameState.
  destruct (match JsMap.get (GameState.roomId state) (gameStates m) with
            | Some existing =>
                Date_gt (GameState.lastUpdated state) (GameState.lastUpdated existing)
            | None => true
            end).
  - now rewrite notifyListeners_spec.
  - now rewrite app_nil_r.
Qed.

Lemma fold_syncRoom_calls (l : list Room.t) (m : Manager) :
  NoDup (map Room.id l) ->
  delivered (fold_left syncRoom l m) = delivered m ++ flat_map (room_calls m) l.
Proof.
  revert m. induction l as [|room l IH]; intros m Hnd; simpl.
  - now rewrite app_nil_r.
  - inversion Hnd as [|? ? Hfresh Hnd']; subst.
    rewrite IH by assumption. rewrite syncRoom_calls, <- app_assoc.
    f_equal. f_equal. apply flat_map_ext_in. intros r Hr.
    unfold room_calls, getRoom, subscribers.
    rewrite syncRoom_get_other.
    + now rewrite (proj1 (syncRoom_frame m room)).
    + intros Heq. apply Hfresh. rewrite Heq. now apply in_map.
Qed.

Lemma fold_syncGameState_calls (l : list GameState.t) (m : Manager) :
  NoDup (map GameState.roomId l) ->
  delivered (fold_left syncGameState l m) = delivered m ++ flat_map (game_calls m) l.
Proof.
  revert m. induction l as [|state l IH]; intros m Hnd; simpl.
  - now rewrite app_nil_r.
  - inversion Hnd as [|? ? Hfresh Hnd']; subst.
    rewrite IH by assumption. rewrite syncGameState_calls, <- app_assoc.
    f_equal. f_equal. apply flat_map_ext_in. intros g Hg.
    unfold game_calls, getGameState, subscribers.
    rewrite syncGameState_get_other.
    + now rewrite (proj1 (syncGameState_frame m state)).
    + intros Heq. apply Hfresh. rewrite Heq. now apply in_map.
Qed.

(** X5.  All the listener calls of one tick, in order, when the shared record
    lists each id once.  First, record order, one round per remote room
    that is new or newer than the local room: the subscribers of
    [room:<id>], in registration order, each called with the remote room.
    Then the same for the game states and the subscribers of
    [game:<roomId>].  Last, the subscribers of [rooms], each called with
    the complete room list after the merge.  Nobody else is called; a
    remote entity that is not newer causes no call. *)
Theorem tick_calls (m : Manager) (data : SharedData.t) :
  addaMultiplayerSync (localStorage m) = Some data ->
  NoDup (map Room.id (SharedData.rooms data)) ->
  NoDup (map GameState.roomId (SharedData.gameStates data)) ->
  delivered (syncWithOtherDevices m) =
  delivered m
  ++ flat_map (room_calls m) (SharedData.rooms data)
  ++ flat_map (game_calls m) (SharedData.gameStates data)
  ++ map (fun callback => (callback, RoomsPayload (getAllRooms (syncWithOtherDevices m))))
         (subscribers "rooms" m).
Proof.
  intros Hdata Hrooms Hstates.
  pose proof (proj1 (@syncWithOtherDevices_repository m data Hdata)) as Hrepo.
  unfold getAllRooms. rewrite Hrepo.
  unfold syncWithOtherDevices. rewrite Hdata.
  set (m1 := fold_left syncRoom (SharedData.rooms data) m).
  set (m2 := fold_left syncGameState (SharedData.gameStates data) m1).
  destruct (fold_frame syncRoom syncRoom_frame (SharedData.rooms data) m)
    as [Hl1 _]. fold m1 in Hl1.
  destruct (fold_frame syncGameState syncGameState_frame (SharedData.gameStates data) m1)
    as [Hl2 _]. fold m2 in Hl2.
  rewrite notifyListeners_spec. cbn [delivered with_delivered].
  assert (Hsub : subscribers "rooms" m2 = subscribers "rooms" m).
  { unfold subscribers. now rewrite Hl2, Hl1. }
  assert (Hr2 : rooms m2 = fold_left (lww_step Room.id Room.lastUpdated)
                                     (SharedData.rooms data) (rooms m)).
  { subst m2 m1. now rewrite rooms_fold_syncGameState, rooms_fold_syncRoom. }
  rewrite Hsub, Hr2.
  subst m2. rewrite fold_syncGameState_calls by assumption.
  subst m1. rewrite fold_syncRoom_calls by assumption.
  rewrite <- !app_assoc. f_equal. f_equal. f_equal.
  apply flat_map_ext_in. intros g Hg.
  unfold game_calls, getGameState, subscribers.
  rewrite (proj1 (gameStates_fold_syncRoom (SharedData.rooms data) m)).
  now rewrite Hl1.
Qed.

Lemma tick_calls_witness :
  let m := on "rooms" 1 (on "room:AB12CD" 2 (on "room:AB12CD" 3 Scenario.otherTab)) in
  addaMultiplayerSync (localStorage m)
    = Some (SharedData.mk [Scenario.friendsWithBob] [] 2500) /\
  NoDup (map Room.id [Scenario.friendsWithBob]) /\
  NoDup (map GameState.roomId []) /\
  delivered (syncWithOtherDevices m) =
    [(3, RoomPayload Scenario.friendsWithBob);
     (2, RoomPayload Scenario.friendsWithBob);
     (1, RoomsPayload [Scenario.friendsWithBob])].
Proof.
  intros m.
  assert (Hnd : NoDup (map Room.id [Scenario.friendsWithBob])).
  { simpl. constructor; [intros []|constructor]. }
  assert (Hnd' : NoDup (map GameState.roomId [])) by constructor.
  split; [reflexivity|]. split; [exact Hnd|]. split; [exact Hnd'|].
  rewrite (@tick_calls m (SharedData.mk [Scenario.friendsWithBob] [] 2500)
             eq_refl Hnd Hnd').
  reflexivity.
Defined.
